(** * Agentic Call Assistant: the call-request pipeline

    A shallow embedding of [src/app/api/call/route.ts] (the POST handler of
    /api/call, its zod schema, the script builder and the XML escaping) and of
    the client page that is stored in the same file (the form state, the
    activity log and [handleSubmit]).

    JavaScript strings are sequences of UTF-16 code units; they are modelled
    as lists of code units so that [length], [trim] and the regular expression
    see exactly what the engine sees. *)

From Stdlib Require Import List Arith NArith Bool Ascii String Lia.
Import ListNotations.

Set Warnings "-register-all".
Set Warnings "-automation".
Set Warnings "-abstract-large-number".

(* ================================================================== *)
(** ** JavaScript strings *)

Definition char16 := N.
Definition jsstring := list char16.

(** A string literal of the source, read as code units. *)
Definition lit (s : string) : jsstring :=
  map N_of_ascii (list_ascii_of_string s).

Definition char16_eqb (a b : char16) : bool := N.eqb a b.

Fixpoint jsstring_eqb (a b : jsstring) : bool :=
  match a, b with
  | [], [] => true
  | x :: a', y :: b' => char16_eqb x y && jsstring_eqb a' b'
  | _, _ => false
  end.

(** The double quote and the apostrophe, by code unit. *)
Definition dquote : char16 := 34%N.
Definition apos : char16 := 39%N.
Definition amp : char16 := 38%N.
Definition lt_sign : char16 := 60%N.
Definition gt_sign : char16 := 62%N.

(** ECMAScript WhiteSpace and LineTerminator code points, the set that
    [String.prototype.trim] strips.  All of them lie in the basic plane, so
    the test is per code unit. *)
Definition isWhiteSpace (c : char16) : bool :=
  ((9 <=? c) && (c <=? 13) ||
   (c =? 32) || (c =? 160) || (c =? 5760) ||
   ((8192 <=? c) && (c <=? 8202)) ||
   (c =? 8232) || (c =? 8233) || (c =? 8239) || (c =? 8287) ||
   (c =? 12288) || (c =? 65279))%N.

Fixpoint trimStart (s : jsstring) : jsstring :=
  match s with
  | [] => []
  | c :: s' => if isWhiteSpace c then trimStart s' else s
  end.

Definition trimEnd (s : jsstring) : jsstring := rev (trimStart (rev s)).

Definition trim (s : jsstring) : jsstring := trimEnd (trimStart s).

(** Truthiness of a string value: only the empty string is falsy. *)
Definition truthy (s : jsstring) : bool :=
  match s with [] => false | _ :: _ => true end.

(** Truthiness of a value that may be [undefined]. *)
Definition truthy_opt (o : option jsstring) : bool :=
  match o with None => false | Some s => truthy s end.

(** [Array.prototype.join] with a separator. *)
Fixpoint join (sep : jsstring) (parts : list jsstring) : jsstring :=
  match parts with
  | [] => []
  | [p] => p
  | p :: rest => p ++ sep ++ join sep rest
  end.

(** [s.replace(/pat/g, rep)] for a literal, non-empty pattern and a
    replacement without [$]: a left-to-right scan, matches do not overlap.
    [skip] counts the code units of the current match still to be dropped. *)
Fixpoint starts_with (pat s : jsstring) : bool :=
  match pat, s with
  | [], _ => true
  | p :: pat', c :: s' => char16_eqb p c && starts_with pat' s'
  | _ :: _, [] => false
  end.

Fixpoint replace_from (pat rep : jsstring) (skip : nat) (s : jsstring)
  : jsstring :=
  match s with
  | [] => []
  | c :: s' =>
      match skip with
      | S k => replace_from pat rep k s'
      | O =>
          if starts_with pat s
          then rep ++ replace_from pat rep (List.length pat - 1) s'
          else c :: replace_from pat rep 0 s'
      end
  end.

Definition replaceAll (pat rep s : jsstring) : jsstring :=
  replace_from pat rep 0 s.

(* ================================================================== *)
(** ** Regular expressions

    A small matcher by derivatives, enough for the pattern of the schema.
    [test] is a whole-string match: the pattern of the source is anchored
    with [^] and [$] and carries no flag. *)

Inductive regex : Type :=
| RNone
| REps
| RRange (lo hi : char16)
| RSeq (r1 r2 : regex)
| RAlt (r1 r2 : regex)
| RRepeat (lo hi : nat) (r : regex).

Definition RChar (c : char16) : regex := RRange c c.
Definition ROpt (r : regex) : regex := RRepeat 0 1 r.

Fixpoint nullable (r : regex) : bool :=
  match r with
  | RNone => false
  | REps => true
  | RRange _ _ => false
  | RSeq r1 r2 => nullable r1 && nullable r2
  | RAlt r1 r2 => nullable r1 || nullable r2
  | RRepeat lo _ r => Nat.eqb lo 0 || nullable r
  end.

Fixpoint deriv (c : char16) (r : regex) : regex :=
  match r with
  | RNone => RNone
  | REps => RNone
  | RRange lo hi => if ((lo <=? c) && (c <=? hi))%N then REps else RNone
  | RSeq r1 r2 =>
      if nullable r1
      then RAlt (RSeq (deriv c r1) r2) (deriv c r2)
      else RSeq (deriv c r1) r2
  | RAlt r1 r2 => RAlt (deriv c r1) (deriv c r2)
  | RRepeat lo hi r' =>
      match hi with
      | O => RNone
      | S hi' => RSeq (deriv c r') (RRepeat (Nat.pred lo) hi' r')
      end
  end.

Fixpoint test (r : regex) (s : jsstring) : bool :=
  match s with
  | [] => nullable r
  | c :: s' => test (deriv c r) s'
  end.

(** [/^\+?[1-9]\d{6,14}$/] *)
Definition E164 : regex :=
  RSeq (ROpt (RChar 43%N))
       (RSeq (RRange 49%N 57%N) (RRepeat 6 14 (RRange 48%N 57%N))).

(* ================================================================== *)
(** ** Untyped input: JSON values

    What [request.json()] yields.  The schema only asks a number for its
    type, so the numeric payload is kept as an integer.  [JObject] lists the
    own properties of the object; [getProp] is the property read [data[key]],
    which gives [undefined] ([None]) for a key the object does not have. *)

Inductive json : Type :=
| JNull
| JBool (b : bool)
| JNumber (n : N)
| JString (s : jsstring)
| JArray (items : list json)
| JObject (props : list (jsstring * json)).

Fixpoint getProp (key : jsstring) (props : list (jsstring * json))
  : option json :=
  match props with
  | [] => None
  | (k, v) :: rest => if jsstring_eqb key k then Some v else getProp key rest
  end.

(* ================================================================== *)
(** ** The zod schema layer

    The part of zod that [z.object], [z.string], [.trim()], [.min()],
    [.regex()], [.optional()] and [safeParse] exercise.  The texts of zod's
    built-in error map are not part of this repository: they are a parameter
    of the development ([errorMap]); a check that was given its own message
    in the source uses that message instead. *)

Inductive ZodParsedType : Type :=
| PTundefined | PTnull | PTboolean | PTnumber | PTstring | PTarray | PTobject.

Definition getParsedType (v : option json) : ZodParsedType :=
  match v with
  | None => PTundefined
  | Some JNull => PTnull
  | Some (JBool _) => PTboolean
  | Some (JNumber _) => PTnumber
  | Some (JString _) => PTstring
  | Some (JArray _) => PTarray
  | Some (JObject _) => PTobject
  end.

Inductive ZodIssueCode : Type :=
| invalid_type (expected received : ZodParsedType)
| too_small (minimum : nat)
| invalid_string_regex.

Record ZodIssue : Type := mkIssue {
  code : ZodIssueCode;
  path : list jsstring;
  message : jsstring
}.

Inductive StringCheck : Type :=
| check_trim
| check_min (value : nat) (msg : option jsstring)
| check_regex (re : regex) (msg : option jsstring).

(** [z.string()] followed by its chain of checks. *)
Definition ZodString := list StringCheck.

(** The shape given to [z.object]: both schemas of the repository have these
    six keys, in this order, two of them wrapped in [.optional()]. *)
Record CallRequestShape : Type := mkShape {
  sh_callerName : ZodString;
  sh_callerNumber : ZodString;      (* .optional() *)
  sh_recipientName : ZodString;
  sh_recipientNumber : ZodString;
  sh_objective : ZodString;
  sh_notes : ZodString              (* .optional() *)
}.

(** [z.infer<typeof requestSchema>] *)
Record CallRequest : Type := mkCallRequest {
  callerName : jsstring;
  callerNumber : option jsstring;
  recipientName : jsstring;
  recipientNumber : jsstring;
  objective : jsstring;
  notes : option jsstring
}.

Inductive SafeParseReturn : Type :=
| ParseSuccess (data : CallRequest)
| ParseError (issues : list ZodIssue).

Definition key_callerName : jsstring := lit "callerName".
Definition key_callerNumber : jsstring := lit "callerNumber".
Definition key_recipientName : jsstring := lit "recipientName".
Definition key_recipientNumber : jsstring := lit "recipientNumber".
Definition key_objective : jsstring := lit "objective".
Definition key_notes : jsstring := lit "notes".

Section Zod.

Variable errorMap : ZodIssueCode -> jsstring.

Definition makeIssue (c : ZodIssueCode) (p : list jsstring)
           (msg : option jsstring) : ZodIssue :=
  {| code := c; path := p;
     message := match msg with Some m => m | None => errorMap c end |}.

(** The loop over [this._def.checks] of a string schema: [trim] rewrites
    the data, [min] and [regex] add an issue and go on. *)
Fixpoint runChecks (p : list jsstring) (cs : list StringCheck)
         (data : jsstring) : list ZodIssue * jsstring :=
  match cs with
  | [] => ([], data)
  | check_trim :: cs' => runChecks p cs' (trim data)
  | check_min n msg :: cs' =>
      let '(iss, d) := runChecks p cs' data in
      if Nat.ltb (List.length data) n
      then (makeIssue (too_small n) p msg :: iss, d)
      else (iss, d)
  | check_regex re msg :: cs' =>
      let '(iss, d) := runChecks p cs' data in
      if test re data
      then (iss, d)
      else (makeIssue invalid_string_regex p msg :: iss, d)
  end.

(** A required string: anything that is not a string is an [invalid_type]
    issue and the checks are not run. *)
Definition parseString (p : list jsstring) (cs : ZodString)
           (v : option json) : list ZodIssue * jsstring :=
  match v with
  | Some (JString s) => runChecks p cs s
  | _ => ([makeIssue (invalid_type PTstring (getParsedType v)) p None], [])
  end.

(** [.optional()]: [undefined] is accepted as it is, every other value goes
    to the inner schema. *)
Definition parseOptional (p : list jsstring) (cs : ZodString)
           (v : option json) : list ZodIssue * option jsstring :=
  match v with
  | None => ([], None)
  | Some _ => let '(iss, d) := parseString p cs v in (iss, Some d)
  end.

(** [schema.safeParse(json)]: the object check, then the keys of the shape
    in the order they were written; unknown keys are dropped. *)
Definition safeParse (sh : CallRequestShape) (input : json)
  : SafeParseReturn :=
  match input with
  | JObject props =>
      let '(i1, v1) := parseString [key_callerName] (sh_callerName sh)
                                   (getProp key_callerName props) in
      let '(i2, v2) := parseOptional [key_callerNumber] (sh_callerNumber sh)
                                     (getProp key_callerNumber props) in
      let '(i3, v3) := parseString [key_recipientName] (sh_recipientName sh)
                                   (getProp key_recipientName props) in
      let '(i4, v4) := parseString [key_recipientNumber]
                                   (sh_recipientNumber sh)
                                   (getProp key_recipientNumber props) in
      let '(i5, v5) := parseString [key_objective] (sh_objective sh)
                                   (getProp key_objective props) in
      let '(i6, v6) := parseOptional [key_notes] (sh_notes sh)
                                     (getProp key_notes props) in
      match i1 ++ i2 ++ i3 ++ i4 ++ i5 ++ i6 with
      | [] => ParseSuccess (mkCallRequest v1 v2 v3 v4 v5 v6)
      | issues => ParseError issues
      end
  | _ =>
      ParseError
        [makeIssue (invalid_type PTobject (getParsedType (Some input)))
                   [] None]
  end.

End Zod.

(** The English texts of zod 3's built-in error map for the three kinds of
    issue that can arise here. *)
Definition parsedTypeName (t : ZodParsedType) : jsstring :=
  match t with
  | PTundefined => lit "undefined"
  | PTnull => lit "null"
  | PTboolean => lit "boolean"
  | PTnumber => lit "number"
  | PTstring => lit "string"
  | PTarray => lit "array"
  | PTobject => lit "object"
  end.

Fixpoint digits_of (fuel n : nat) (acc : jsstring) : jsstring :=
  match fuel with
  | O => acc
  | S fuel' =>
      let d := (48 + N.of_nat (Nat.modulo n 10))%N in
      match Nat.div n 10 with
      | O => d :: acc
      | q => digits_of fuel' q (d :: acc)
      end
  end.

Definition decimal (n : nat) : jsstring := digits_of (S n) n [].

Definition zodErrorMap (c : ZodIssueCode) : jsstring :=
  match c with
  | invalid_type _ PTundefined => lit "Required"
  | invalid_type e r =>
      lit "Expected " ++ parsedTypeName e ++ lit ", received "
          ++ parsedTypeName r
  | too_small n =>
      lit "String must contain at least " ++ decimal n ++ lit " character(s)"
  | invalid_string_regex => lit "Invalid"
  end.

(* ================================================================== *)
(** ** route.ts: the schema, the script and the escaping *)

Definition requestSchema : CallRequestShape :=
  {| sh_callerName := [check_trim; check_min 2 None];
     sh_callerNumber := [check_trim];
     sh_recipientName := [check_trim; check_min 2 None];
     sh_recipientNumber :=
       [check_trim;
        check_regex E164 (Some (lit "Phone numbers must be in E.164 format."))];
     sh_objective := [check_trim; check_min 5 None];
     sh_notes := [check_trim] |}.

(** [a ?? b] *)
Definition nullish (a : option jsstring) (b : jsstring) : jsstring :=
  match a with Some x => x | None => b end.

(** [.filter(Boolean)] over an array whose entries may be [undefined]. *)
Fixpoint filterBoolean (l : list (option jsstring)) : list jsstring :=
  match l with
  | [] => []
  | x :: l' =>
      if truthy_opt x then nullish x [] :: filterBoolean l'
      else filterBoolean l'
  end.

Definition buildCallScript (payload : CallRequest) : jsstring :=
  let greeting :=
    lit "Hello " ++ recipientName payload
        ++ lit ", this is an automated call for you." in
  let introduction :=
    nullish (Some (callerName payload)) (lit "Agentic Assistant")
            ++ lit " asked me to share the following update." in
  let objective := objective payload in
  let notes :=
    if truthy_opt (notes payload)
    then Some (lit "Additional context from "
                   ++ nullish (Some (callerName payload)) (lit "the caller")
                   ++ lit ": " ++ nullish (notes payload) [])
    else None in
  let callback :=
    if truthy_opt (callerNumber payload)
    then lit "If you have questions, please call back at "
             ++ nullish (callerNumber payload) [] ++ lit "."
    else lit "If you have any questions, please reach out to them at your convenience." in
  join (lit " ")
       (filterBoolean [Some greeting; Some introduction; Some objective;
                       notes; Some callback;
                       Some (lit "Thank you and goodbye!")]).

Definition escapeForXml (input : jsstring) : jsstring :=
  replaceAll [gt_sign] (lit "&gt;")
    (replaceAll [lt_sign] (lit "&lt;")
      (replaceAll [apos] (lit "&apos;")
        (replaceAll [dquote] (lit "&quot;")
          (replaceAll [amp] (lit "&amp;") input)))).

(* ================================================================== *)
(** ** route.ts: the POST handler

    The handler is written in a small monad of effects and exceptions: a
    computation yields the effects it performed, in order, and either a value
    or the thrown value.  The effects are the two that leave the process:
    [console.error] and the provider's [calls.create]. *)

(** What [catch (error)] can receive: an [Error] instance, with its message
    and its stack, or any other thrown value. *)
Inductive Thrown : Type :=
| ThrownError (err_message err_stack : jsstring)
| ThrownOther (v : json).

Record CallParams : Type := mkCallParams {
  p_to : jsstring;
  p_from : jsstring;
  p_twiml : jsstring
}.

Inductive Effect : Type :=
| ConsoleError (label : jsstring) (err : Thrown)
| CallsCreate (accountSid authToken : jsstring) (params : CallParams).

Definition Eff (A : Type) : Type := (list Effect * (Thrown + A))%type.

Definition ret {A} (a : A) : Eff A := ([], inr a).
Definition throw {A} (e : Thrown) : Eff A := ([], inl e).
Definition bind {A B} (m : Eff A) (k : A -> Eff B) : Eff B :=
  match m with
  | (tr, inl e) => (tr, inl e)
  | (tr, inr a) => let '(tr', r) := k a in (tr ++ tr', r)
  end.
Definition perform (e : Effect) : Eff unit := ([e], inr tt).

(** [try { body } catch (error) { handler }] where the handler returns. *)
Definition try_catch {A} (body : Eff A) (handler : Thrown -> list Effect * A)
  : list Effect * A :=
  match body with
  | (tr, inr a) => (tr, a)
  | (tr, inl e) => let '(tr', a) := handler e in (tr ++ tr', a)
  end.

Declare Scope eff_scope.
Delimit Scope eff_scope with eff.
Notation "x <- m ;; k" := (bind m (fun x => k))
  (at level 61, m at next level, right associativity) : eff_scope.

(** [process.env]: each variable is a string or [undefined]. *)
Record ProcessEnv : Type := mkEnv {
  TWILIO_ACCOUNT_SID : option jsstring;
  TWILIO_AUTH_TOKEN : option jsstring;
  TWILIO_FROM_NUMBER : option jsstring
}.

Record TwilioEnv : Type := mkTwilioEnv {
  accountSid : jsstring;
  authToken : jsstring;
  fromNumber : jsstring
}.

Definition missingConfigMessage : jsstring :=
  lit "Missing Twilio configuration. Set TWILIO_ACCOUNT_SID, TWILIO_AUTH_TOKEN, and TWILIO_FROM_NUMBER.".

(** [new Error(msg)]: the stack is whatever the engine records. *)
Definition newError (msg : jsstring) : Thrown :=
  ThrownError msg (lit "Error: " ++ msg).

Definition ensureTwilioEnv (env : ProcessEnv) : Eff TwilioEnv :=
  let accountSid := TWILIO_ACCOUNT_SID env in
  let authToken := TWILIO_AUTH_TOKEN env in
  let fromNumber := TWILIO_FROM_NUMBER env in
  if negb (truthy_opt accountSid) || negb (truthy_opt authToken)
     || negb (truthy_opt fromNumber)
  then throw (newError missingConfigMessage)
  else ret (mkTwilioEnv (nullish accountSid []) (nullish authToken [])
                        (nullish fromNumber [])).

(** The provider library as the handler meets it, one step at a time, each
    of which can throw: [await import("twilio")] gives the module or throws;
    [twilio.default(sid, token)] builds a client or throws (the library
    refuses credentials it finds malformed); [client.calls.create(params)]
    places the call and resolves with a call whose [sid] is returned, or
    throws.  The library is not part of the repository: it is a parameter. *)
Definition TwilioClient : Type := CallParams -> Thrown + jsstring.
Definition TwilioModule : Type := jsstring -> jsstring -> Thrown + TwilioClient.
Definition Provider : Type := (Thrown + TwilioModule)%type.

Definition importTwilio (twilio : Provider) : Eff TwilioModule :=
  match twilio with
  | inl e => throw e
  | inr m => ret m
  end.

Definition twilioDefault (m : TwilioModule) (sid token : jsstring)
  : Eff TwilioClient :=
  match m sid token with
  | inl e => throw e
  | inr client => ret client
  end.

(** Only this step reaches the provider: the effect records the call being
    handed over, by a client built with these credentials. *)
Definition callsCreate (client : TwilioClient) (sid token : jsstring)
           (params : CallParams) : Eff jsstring :=
  (_ <- perform (CallsCreate sid token params) ;;
   match client params with
   | inl e => throw e
   | inr callSid => ret callSid
   end)%eff.

(** [NextResponse.json(body, { status })]; the status is 200 when none is
    given. *)
Record Response : Type := mkResponse {
  status : N;
  success : bool;
  resp_message : jsstring
}.

Definition twimlOf (script : jsstring) : jsstring :=
  lit "<Response><Say voice=" ++ [dquote] ++ lit "Polly.Joey" ++ [dquote]
      ++ lit " language=" ++ [dquote] ++ lit "en-US" ++ [dquote] ++ lit ">"
      ++ escapeForXml script ++ lit "</Say></Response>".

Definition genericServerError : jsstring :=
  lit "Unexpected server error while attempting to trigger the call.".

Definition queuedMessage (callSid : jsstring) : jsstring :=
  lit "Call queued with SID " ++ callSid
      ++ lit ". Twilio will place the call shortly.".

Section Route.

Variable errorMap : ZodIssueCode -> jsstring.

(** The [try] block.  [request] is the outcome of
    [await request.json()]. *)
Definition POST_try (env : ProcessEnv) (twilio : Provider)
           (request : Thrown + json) : Eff Response :=
  (json <- (match request with
            | inl e => throw e
            | inr j => ret j
            end) ;;
   match safeParse errorMap requestSchema json with
   | ParseError issues =>
       ret (mkResponse 400 false
              (match issues with
               | firstIssue :: _ => message firstIssue
               | [] => lit "Invalid payload"
               end))
   | ParseSuccess data =>
       cfg <- ensureTwilioEnv env ;;
       let script := buildCallScript data in
       twilioModule <- importTwilio twilio ;;
       client <- twilioDefault twilioModule (accountSid cfg) (authToken cfg) ;;
       callSid <- callsCreate client (accountSid cfg) (authToken cfg)
                    (mkCallParams (recipientNumber data) (fromNumber cfg)
                                  (twimlOf script)) ;;
       ret (mkResponse 200 true (queuedMessage callSid))
   end)%eff.

(** The [catch] block. *)
Definition POST_catch (error : Thrown) : list Effect * Response :=
  ([ConsoleError (lit "Failed to queue call") error],
   mkResponse 500 false
     (match error with
      | ThrownError m _ => m
      | ThrownOther _ => genericServerError
      end)).

Definition POST (env : ProcessEnv) (twilio : Provider)
           (request : Thrown + json) : list Effect * Response :=
  try_catch (POST_try env twilio request) POST_catch.

End Route.

(** The provider invocations among the effects of a run. *)
Fixpoint providerCalls (tr : list Effect) : nat :=
  match tr with
  | [] => 0
  | CallsCreate _ _ _ :: tr' => S (providerCalls tr')
  | ConsoleError _ _ :: tr' => providerCalls tr'
  end.

(* ================================================================== *)
(** ** The client page: form state, activity log, [handleSubmit]

    The component's four pieces of state are one record.  Every [setX] of the
    source is either a plain value or a functional update of the previous
    state, so events are state transformers that are run one after the other
    on the single thread of the page.  An [await] splits [handleSubmit] in
    two: what runs at submission and what runs when the round trip settles;
    any other event may run in between.  Console output of the page is not
    part of its state and is left out. *)

Inductive CallStatus : Type := queued | succeeded | failed.

Record CallLogEntry : Type := mkLog {
  log_id : jsstring;
  log_createdAt : jsstring;
  log_status : CallStatus;
  log_recipientName : jsstring;
  log_recipientNumber : jsstring;
  log_objective : jsstring;
  log_notes : option jsstring;
  log_responseMessage : jsstring
}.

Definition callRequestSchema : CallRequestShape :=
  {| sh_callerName :=
       [check_trim; check_min 2 (Some (lit "Caller name is required"))];
     sh_callerNumber := [check_trim];
     sh_recipientName :=
       [check_trim; check_min 2 (Some (lit "Recipient name is required"))];
     sh_recipientNumber :=
       [check_trim;
        check_regex E164
          (Some (lit "Enter an E.164 phone number, e.g. +15551234567"))];
     sh_objective :=
       [check_trim;
        check_min 5 (Some (lit "Please describe what the agent should say"))];
     sh_notes := [check_trim] |}.

Definition CallRequestFormState := CallRequest.

Definition defaultForm : CallRequestFormState :=
  {| callerName := lit "Agentic Assistant";
     callerNumber := Some [];
     recipientName := [];
     recipientNumber := [];
     objective := [];
     notes := Some [] |}.

(** [Record<string, string>] as an association list with unique keys. *)
Definition FormErrors := list (jsstring * jsstring).

Fixpoint errGet (key : jsstring) (e : FormErrors) : option jsstring :=
  match e with
  | [] => None
  | (k, v) :: e' => if jsstring_eqb key k then Some v else errGet key e'
  end.

Fixpoint errDelete (key : jsstring) (e : FormErrors) : FormErrors :=
  match e with
  | [] => []
  | (k, v) :: e' =>
      if jsstring_eqb key k then errDelete key e' else (k, v) :: errDelete key e'
  end.

Definition errSet (key v : jsstring) (e : FormErrors) : FormErrors :=
  match errGet key e with
  | Some _ => map (fun kv => if jsstring_eqb key (fst kv) then (key, v) else kv) e
  | None => e ++ [(key, v)]
  end.

Record PageState : Type := mkPage {
  form : CallRequestFormState;
  logs : list CallLogEntry;
  isSubmitting : bool;
  formErrors : FormErrors
}.

Definition initialPage : PageState :=
  mkPage defaultForm [] false [].

Inductive FormField : Type :=
| FcallerName | FcallerNumber | FrecipientName | FrecipientNumber
| Fobjective | Fnotes.

Definition fieldKey (f : FormField) : jsstring :=
  match f with
  | FcallerName => key_callerName
  | FcallerNumber => key_callerNumber
  | FrecipientName => key_recipientName
  | FrecipientNumber => key_recipientNumber
  | Fobjective => key_objective
  | Fnotes => key_notes
  end.

(** [{ ...prev, [field]: value }] *)
Definition setField (f : FormField) (value : jsstring)
           (prev : CallRequestFormState) : CallRequestFormState :=
  match f with
  | FcallerName =>
      mkCallRequest value (callerNumber prev) (recipientName prev)
                    (recipientNumber prev) (objective prev) (notes prev)
  | FcallerNumber =>
      mkCallRequest (callerName prev) (Some value) (recipientName prev)
                    (recipientNumber prev) (objective prev) (notes prev)
  | FrecipientName =>
      mkCallRequest (callerName prev) (callerNumber prev) value
                    (recipientNumber prev) (objective prev) (notes prev)
  | FrecipientNumber =>
      mkCallRequest (callerName prev) (callerNumber prev) (recipientName prev)
                    value (objective prev) (notes prev)
  | Fobjective =>
      mkCallRequest (callerName prev) (callerNumber prev) (recipientName prev)
                    (recipientNumber prev) value (notes prev)
  | Fnotes =>
      mkCallRequest (callerName prev) (callerNumber prev) (recipientName prev)
                    (recipientNumber prev) (objective prev) (Some value)
  end.

Definition onChange (f : FormField) (value : jsstring) (s : PageState)
  : PageState :=
  mkPage (setField f value (form s)) (logs s) (isSubmitting s)
         (if truthy_opt (errGet (fieldKey f) (formErrors s))
          then errDelete (fieldKey f) (formErrors s)
          else formErrors s).

Definition resetForm (s : PageState) : PageState :=
  mkPage defaultForm (logs s) (isSubmitting s) [].

(** The form state as the value handed to [safeParse]: an optional field
    that is [undefined] reads as an absent property. *)
Definition formValue (f : CallRequestFormState) : json :=
  JObject
    ([(key_callerName, JString (callerName f))]
       ++ match callerNumber f with
          | Some v => [(key_callerNumber, JString v)]
          | None => []
          end
       ++ [(key_recipientName, JString (recipientName f));
           (key_recipientNumber, JString (recipientNumber f));
           (key_objective, JString (objective f))]
       ++ match notes f with
          | Some v => [(key_notes, JString v)]
          | None => []
          end).

(** The loop that keeps, per field, the message of its first issue. *)
Fixpoint collectErrors (issues : list ZodIssue) (errors : FormErrors)
  : FormErrors :=
  match issues with
  | [] => errors
  | issue :: rest =>
      match path issue with
      | key :: _ =>
          if negb (truthy_opt (errGet key errors))
          then collectErrors rest (errSet key (message issue) errors)
          else collectErrors rest errors
      | [] => collectErrors rest errors
      end
  end.

(** The body of the response as the page reads it. *)
Record Payload : Type := mkPayload {
  pl_success : bool;
  pl_message : jsstring
}.

(** How the round trip ends: [fetch] and [response.json()] went through, or
    one of them threw. *)
Inductive RoundTrip : Type :=
| Answered (payload : Payload)
| Broken (e : Thrown).

Definition sendingMessage : jsstring := lit "Sending call request...".
Definition transportErrorMessage : jsstring :=
  lit "Unexpected error communicating with the call service. Check server logs.".

(** [prev.map(log => log.id === id ? { ...log, status, responseMessage } : log)] *)
Definition updateLog (id : jsstring) (st : CallStatus) (msg : jsstring)
           (prev : list CallLogEntry) : list CallLogEntry :=
  map (fun log =>
         if jsstring_eqb (log_id log) id
         then mkLog (log_id log) (log_createdAt log) st
                    (log_recipientName log) (log_recipientNumber log)
                    (log_objective log) (log_notes log) msg
         else log)
      prev.

Section Page.

Variable errorMap : ZodIssueCode -> jsstring.

(** [handleSubmit] up to the first [await].  [id] and [now] are what
    [crypto.randomUUID()] and [new Date().toISOString()] return.  The
    second component is the body handed to [fetch], if a request is sent. *)
Definition handleSubmit_begin (id now : jsstring) (s : PageState)
  : PageState * option CallRequest :=
  match safeParse errorMap callRequestSchema (formValue (form s)) with
  | ParseError issues =>
      (mkPage (form s) (logs s) (isSubmitting s) (collectErrors issues []),
       None)
  | ParseSuccess data =>
      let optimisticLog :=
        mkLog id now queued (recipientName data) (recipientNumber data)
              (objective data) (notes data) sendingMessage in
      (mkPage (form s) (optimisticLog :: logs s) true (formErrors s),
       Some data)
  end.

(** [handleSubmit] after the round trip has settled: the [try] body after
    the [await]s, or the [catch] block, and then [finally]. *)
Definition handleSubmit_settle (id : jsstring) (r : RoundTrip)
           (s : PageState) : PageState :=
  match r with
  | Answered payload =>
      let s1 :=
        mkPage (form s)
               (updateLog id
                  (if pl_success payload then succeeded else failed)
                  (pl_message payload) (logs s))
               (isSubmitting s) (formErrors s) in
      let s2 := if pl_success payload then resetForm s1 else s1 in
      mkPage (form s2) (logs s2) false (formErrors s2)
  | Broken _ =>
      mkPage (form s)
             (updateLog id failed transportErrorMessage (logs s))
             false (formErrors s)
  end.

(** The events of the page and its run on a sequence of them. *)
Inductive PageEvent : Type :=
| EvChange (f : FormField) (value : jsstring)
| EvReset
| EvSubmit (id now : jsstring)
| EvSettle (id : jsstring) (r : RoundTrip).

Definition pageStep (s : PageState) (ev : PageEvent) : PageState :=
  match ev with
  | EvChange f v => onChange f v s
  | EvReset => resetForm s
  | EvSubmit id now => fst (handleSubmit_begin id now s)
  | EvSettle id r => handleSubmit_settle id r s
  end.

Definition pageRun (s : PageState) (evs : list PageEvent) : PageState :=
  fold_left pageStep evs s.

End Page.

(* ================================================================== *)
(** ** Notions of the specification, stated apart from the code *)

(** Undoing the escaping: every entity replacement is inverted, the last
    replacement of [escapeForXml] first and the ampersand last. *)
Definition unescapeXml (s : jsstring) : jsstring :=
  replaceAll (lit "&amp;") [amp]
    (replaceAll (lit "&quot;") [dquote]
      (replaceAll (lit "&apos;") [apos]
        (replaceAll (lit "&lt;") [lt_sign]
          (replaceAll (lit "&gt;") [gt_sign] s)))).

(** The entity table of the escaping and the escaping of one code unit under
    a table: the first entry for the unit, or the unit itself. *)
Definition entities : list (char16 * jsstring) :=
  [(amp, lit "&amp;"); (dquote, lit "&quot;"); (apos, lit "&apos;");
   (lt_sign, lit "&lt;"); (gt_sign, lit "&gt;")].

Fixpoint escapeUnit (table : list (char16 * jsstring)) (c : char16)
  : jsstring :=
  match table with
  | [] => [c]
  | (k, ent) :: table' =>
      if char16_eqb k c then ent else escapeUnit table' c
  end.

(** The validation rules of the specification, field by field: the message
    of the violation, if the value violates the rule.  A value that is not
    text violates the rule of a required field. *)
Definition textRuleViolation (errorMap : ZodIssueCode -> jsstring)
           (n : nat) (v : option json) : option jsstring :=
  match v with
  | Some (JString s) =>
      if Nat.ltb (List.length (trim s)) n
      then Some (errorMap (too_small n)) else None
  | _ => Some (errorMap (invalid_type PTstring (getParsedType v)))
  end.

Definition phoneRuleViolation (errorMap : ZodIssueCode -> jsstring)
           (v : option json) : option jsstring :=
  match v with
  | Some (JString s) =>
      if test E164 (trim s) then None
      else Some (lit "Phone numbers must be in E.164 format.")
  | _ => Some (errorMap (invalid_type PTstring (getParsedType v)))
  end.

Definition orElse {A} (a b : option A) : option A :=
  match a with Some _ => a | None => b end.

Definition optList {A} (o : option A) : list A :=
  match o with Some a => [a] | None => [] end.

(** First violation in the order callerName, recipientName, recipientNumber,
    objective. *)
Definition firstViolation (errorMap : ZodIssueCode -> jsstring)
           (props : list (jsstring * json)) : option jsstring :=
  orElse (textRuleViolation errorMap 2 (getProp key_callerName props))
    (orElse (textRuleViolation errorMap 2 (getProp key_recipientName props))
      (orElse (phoneRuleViolation errorMap (getProp key_recipientNumber props))
              (textRuleViolation errorMap 5 (getProp key_objective props)))).

(** An optional field violates its type check when it is there and is not
    text. *)
Definition optionalViolation (errorMap : ZodIssueCode -> jsstring)
           (v : option json) : option jsstring :=
  match v with
  | None => None
  | Some (JString _) => None
  | Some _ => Some (errorMap (invalid_type PTstring (getParsedType v)))
  end.

(** The messages of all violations of an object, in the order of the shape. *)
Definition violationTexts (errorMap : ZodIssueCode -> jsstring)
           (props : list (jsstring * json)) : list jsstring :=
  optList (textRuleViolation errorMap 2 (getProp key_callerName props))
  ++ optList (optionalViolation errorMap (getProp key_callerNumber props))
  ++ optList (textRuleViolation errorMap 2 (getProp key_recipientName props))
  ++ optList (phoneRuleViolation errorMap (getProp key_recipientNumber props))
  ++ optList (textRuleViolation errorMap 5 (getProp key_objective props))
  ++ optList (optionalViolation errorMap (getProp key_notes props)).

(** An optional field is absent or text. *)
Definition absentOrText (v : option json) : bool :=
  match v with
  | None => true
  | Some (JString _) => true
  | Some _ => false
  end.

(** A string schema accepts a text value when parsing it raises no issue. *)
Definition accepts (errorMap : ZodIssueCode -> jsstring) (cs : ZodString)
           (s : jsstring) : bool :=
  match fst (parseString errorMap [] cs (Some (JString s))) with
  | [] => true
  | _ :: _ => false
  end.

(** The segments of the script, as the specification lists them. *)
Definition greetingSegment (recipient : jsstring) : jsstring :=
  lit "Hello " ++ recipient ++ lit ", this is an automated call for you.".
Definition introductionSegment (caller : jsstring) : jsstring :=
  caller ++ lit " asked me to share the following update.".
Definition genericCallbackSegment : jsstring :=
  lit "If you have any questions, please reach out to them at your convenience.".
Definition closingSegment : jsstring := lit "Thank you and goodbye!".

Definition withoutCallerNumber (p : CallRequest) : CallRequest :=
  mkCallRequest (callerName p) None (recipientName p) (recipientNumber p)
                (objective p) (notes p).
Definition withoutNotes (p : CallRequest) : CallRequest :=
  mkCallRequest (callerName p) (callerNumber p) (recipientName p)
                (recipientNumber p) (objective p) None.

(** [{ ...log, status, responseMessage }] *)
Definition withOutcome (st : CallStatus) (msg : jsstring) (log : CallLogEntry)
  : CallLogEntry :=
  mkLog (log_id log) (log_createdAt log) st (log_recipientName log)
        (log_recipientNumber log) (log_objective log) (log_notes log) msg.

(* ================================================================== *)
(** ** The rest of the page: what the markup reads from the state *)

(** [useMemo(() => logs.length, [logs])] *)
Definition totalCalls (l : list CallLogEntry) : nat := List.length l.

Definition isSuccess (st : CallStatus) : bool :=
  match st with succeeded => true | _ => false end.

(** [logs.filter((log) => log.status === "success").length] *)
Definition successfulCalls (l : list CallLogEntry) : nat :=
  List.length (filter (fun log => isSuccess (log_status log)) l).

(** The [value] of each input: [form.callerNumber ?? ""] and
    [form.notes ?? ""] for the two optional fields, the field itself for the
    others. *)
Definition fieldValue (f : FormField) (fm : CallRequestFormState) : jsstring :=
  match f with
  | FcallerName => callerName fm
  | FcallerNumber => nullish (callerNumber fm) []
  | FrecipientName => recipientName fm
  | FrecipientNumber => recipientNumber fm
  | Fobjective => objective fm
  | Fnotes => nullish (notes fm) []
  end.

(** [formErrors.callerName ? <span>...</span> : null]: the text shown under
    a field, if any. *)
Definition shownError (f : FormField) (e : FormErrors) : option jsstring :=
  match errGet (fieldKey f) e with
  | Some m => if truthy m then Some m else None
  | None => None
  end.

(* ================================================================== *)
(** ** Further notions used to state properties *)

Definition isDigit (c : char16) : bool := ((48 <=? c) && (c <=? 57))%N.
Definition isNonZeroDigit (c : char16) : bool := ((49 <=? c) && (c <=? 57))%N.

(** A first digit from 1 to 9 followed by six to fourteen digits. *)
Definition e164Digits (s : jsstring) : bool :=
  match s with
  | [] => false
  | d :: ds =>
      isNonZeroDigit d && Nat.leb 6 (List.length ds)
        && Nat.leb (List.length ds) 14 && forallb isDigit ds
  end.

(** An optional plus sign before the digits. *)
Definition e164Text (s : jsstring) : bool :=
  match s with
  | c :: s' => (char16_eqb 43%N c && e164Digits s') || e164Digits s
  | [] => false
  end.

(** A required field read as text and trimmed; an optional one likewise,
    where absence is fine. *)
Definition requiredText (v : option json) : option jsstring :=
  match v with
  | Some (JString s) => Some (trim s)
  | _ => None
  end.

Definition optionalText (v : option json) : option (option jsstring) :=
  match v with
  | None => Some None
  | Some (JString s) => Some (Some (trim s))
  | Some _ => None
  end.

(** The validator written out directly: the record it accepts, if any. *)
Definition validate (input : json) : option CallRequest :=
  match input with
  | JObject props =>
      match requiredText (getProp key_callerName props),
            optionalText (getProp key_callerNumber props),
            requiredText (getProp key_recipientName props),
            requiredText (getProp key_recipientNumber props),
            requiredText (getProp key_objective props),
            optionalText (getProp key_notes props) with
      | Some a, Some b, Some c, Some d, Some e, Some f =>
          if Nat.leb 2 (List.length a) && Nat.leb 2 (List.length c)
             && e164Text d && Nat.leb 5 (List.length e)
          then Some (mkCallRequest a b c d e f)
          else None
      | _, _, _, _, _, _ => None
      end
  | _ => None
  end.

(** An issue without its message: what was violated, and where. *)
Definition issueKind (i : ZodIssue) : ZodIssueCode * list jsstring :=
  (code i, path i).

(** Two checks that differ in their message at most. *)
Inductive sameCheck : StringCheck -> StringCheck -> Prop :=
| same_trim : sameCheck check_trim check_trim
| same_min n m m' : sameCheck (check_min n m) (check_min n m')
| same_regex re m m' : sameCheck (check_regex re m) (check_regex re m').

Definition sameShape (a b : CallRequestShape) : Prop :=
  Forall2 sameCheck (sh_callerName a) (sh_callerName b)
  /\ Forall2 sameCheck (sh_callerNumber a) (sh_callerNumber b)
  /\ Forall2 sameCheck (sh_recipientName a) (sh_recipientName b)
  /\ Forall2 sameCheck (sh_recipientNumber a) (sh_recipientNumber b)
  /\ Forall2 sameCheck (sh_objective a) (sh_objective b)
  /\ Forall2 sameCheck (sh_notes a) (sh_notes b).

(** The code units that the escaping removes from a text. *)
Definition isMarkup (c : char16) : bool :=
  char16_eqb dquote c || char16_eqb apos c || char16_eqb lt_sign c
  || char16_eqb gt_sign c.

(** The two optional segments of the script. *)
Definition notesSegment (caller text : jsstring) : jsstring :=
  lit "Additional context from " ++ caller ++ lit ": " ++ text.
Definition callbackSegment (number : jsstring) : jsstring :=
  lit "If you have questions, please call back at " ++ number ++ lit ".".

(** The field errors of the page for a form, written out directly: one
    entry for each of the four checked fields that fails, in this order,
    with the message the page's schema gives it. *)
Definition clientErrors (fm : CallRequestFormState) : FormErrors :=
  (if Nat.ltb (List.length (trim (callerName fm))) 2
   then [(key_callerName, lit "Caller name is required")] else [])
  ++ (if Nat.ltb (List.length (trim (recipientName fm))) 2
      then [(key_recipientName, lit "Recipient name is required")] else [])
  ++ (if test E164 (trim (recipientNumber fm)) then []
      else [(key_recipientNumber,
             lit "Enter an E.164 phone number, e.g. +15551234567")])
  ++ (if Nat.ltb (List.length (trim (objective fm))) 5
      then [(key_objective, lit "Please describe what the agent should say")]
      else []).

(** The form after it went through the page's schema: every text trimmed. *)
Definition trimmedForm (fm : CallRequestFormState) : CallRequest :=
  mkCallRequest (trim (callerName fm)) (option_map trim (callerNumber fm))
                (trim (recipientName fm)) (trim (recipientNumber fm))
                (trim (objective fm)) (option_map trim (notes fm)).

(** What an entry copies from the request at submission. *)
Definition snapshot (e : CallLogEntry)
  : jsstring * jsstring * jsstring * jsstring * jsstring * option jsstring :=
  (log_id e, log_createdAt e, log_recipientName e, log_recipientNumber e,
   log_objective e, log_notes e).

(** [JSON.stringify(result.data)] as the handler reads it back with
    [request.json()]: the properties that are [undefined] are left out, the
    texts come back as they were. *)
Definition sentBody (data : CallRequest) : json := formValue data.

(** The round trip of [handleSubmit] against this handler, when the
    transport works: [fetch] posts the body, the handler answers, and
    [response.json()] gives the page the two fields of the answer. *)
Definition fetchCall (errorMap : ZodIssueCode -> jsstring) (env : ProcessEnv)
           (twilio : Provider) (data : CallRequest)
  : list Effect * RoundTrip :=
  let '(tr, r) := POST errorMap env twilio (inr (sentBody data)) in
  (tr, Answered (mkPayload (success r) (resp_message r))).

(** The six keys of the shape. *)
Definition shapeKeys : list jsstring :=
  [key_callerName; key_callerNumber; key_recipientName; key_recipientNumber;
   key_objective; key_notes].

(* ================================================================== *)
(** ** Sample inputs *)

Module Sample.

Definition env : ProcessEnv :=
  mkEnv (Some (lit "AC0123456789abcdef")) (Some (lit "s3cret"))
        (Some (lit "+15550001111")).

(** The credential is not set. *)
Definition envNoToken : ProcessEnv :=
  mkEnv (Some (lit "AC0123456789abcdef")) None (Some (lit "+15550001111")).

(** A library that loads, builds a client for any credentials and accepts
    every call. *)
Definition accepting : Provider :=
  inr (fun _ _ => inr (fun _ => inr (lit "CA42"))).

(** One whose [calls.create] throws something that is not an [Error]. *)
Definition throwingText : Provider :=
  inr (fun _ _ => inr (fun _ => inl (ThrownOther (JString (lit "boom"))))).

(** One that, like the Twilio library, refuses to build a client for an
    account identifier that does not start with AC. *)
Definition strict : Provider :=
  inr (fun sid _ =>
         if starts_with (lit "AC") sid
         then inr (fun _ => inr (lit "CA42"))
         else inl (newError (lit "accountSid must start with AC"))).

(** A complete configuration whose account identifier is not one. *)
Definition envOddSid : ProcessEnv :=
  mkEnv (Some (lit "x")) (Some (lit "s3cret")) (Some (lit "+15550001111")).

Definition body : json :=
  JObject [(key_callerName, JString (lit "Agentic Assistant"));
           (key_recipientName, JString (lit " Jamie Rivera "));
           (key_recipientNumber, JString (lit "+15559876543"));
           (key_objective, JString (lit "Confirm the 10 AM meeting."))].

Definition parsedBody : CallRequest :=
  mkCallRequest (lit "Agentic Assistant") None (lit "Jamie Rivera")
                (lit "+15559876543") (lit "Confirm the 10 AM meeting.") None.

(** callerName is too short and the objective is too short as well. *)
Definition propsShortName : list (jsstring * json) :=
  [(key_callerName, JString (lit " A "));
   (key_recipientName, JString (lit "Jamie Rivera"));
   (key_recipientNumber, JString (lit "+15559876543"));
   (key_objective, JString (lit "Hi"))].

(** Every required field is fine; callerNumber is a number. *)
Definition propsNumericCallerNumber : list (jsstring * json) :=
  [(key_callerName, JString (lit "Agentic Assistant"));
   (key_callerNumber, JNumber 5);
   (key_recipientName, JString (lit "Jamie Rivera"));
   (key_recipientNumber, JString (lit "+15559876543"));
   (key_objective, JString (lit "Confirm the 10 AM meeting."))].

(** recipientName is empty; callerNumber is a number. *)
Definition propsNumericAndEmpty : list (jsstring * json) :=
  [(key_callerName, JString (lit "Agentic Assistant"));
   (key_callerNumber, JNumber 5);
   (key_recipientName, JString []);
   (key_recipientNumber, JString (lit "+15559876543"));
   (key_objective, JString (lit "Confirm the 10 AM meeting."))].

(** callerNumber and notes are blank. *)
Definition propsBlankOptionals : list (jsstring * json) :=
  [(key_callerName, JString (lit "Agentic Assistant"));
   (key_callerNumber, JString (lit "   "));
   (key_recipientName, JString (lit "Jamie Rivera"));
   (key_recipientNumber, JString (lit "+15559876543"));
   (key_objective, JString (lit "Confirm the 10 AM meeting."));
   (key_notes, JString (lit " "))].

Definition parsedBlankOptionals : CallRequest :=
  mkCallRequest (lit "Agentic Assistant") (Some []) (lit "Jamie Rivera")
                (lit "+15559876543") (lit "Confirm the 10 AM meeting.")
                (Some []).

(** What [request.json()] throws on a truncated body. *)
Definition syntaxError : Thrown :=
  ThrownError (lit "Unexpected end of JSON input")
              (lit "SyntaxError: Unexpected end of JSON input at JSON.parse").

(** The page after the form was filled in. *)
Definition filledIn : list PageEvent :=
  [EvChange FrecipientName (lit "Jamie Rivera");
   EvChange FrecipientNumber (lit "+15559876543");
   EvChange Fobjective (lit "Confirm the 10 AM meeting.")].

Definition entry (id now : jsstring) : CallLogEntry :=
  mkLog id now queued (lit "Jamie Rivera") (lit "+15559876543")
        (lit "Confirm the 10 AM meeting.") (Some []) sendingMessage.

(** Two requests in flight. *)
Definition twoInFlight : PageState :=
  pageRun zodErrorMap initialPage
          (filledIn ++ [EvSubmit (lit "req-1") (lit "t1");
                        EvSubmit (lit "req-2") (lit "t2")]).

Definition rejected : Payload := mkPayload false (lit "Authenticate").
Definition accepted : Payload :=
  mkPayload true (queuedMessage (lit "CA42")).

End Sample.

(* ================================================================== *)
(** ** Further sample inputs *)

Module Cases.

Definition sid : jsstring := lit "AC0123456789abcdef".
Definition token : jsstring := lit "s3cret".
Definition number : jsstring := lit "+15550001111".

(** The page with the form filled in, nothing submitted yet. *)
Definition filledPage : PageState :=
  pageRun zodErrorMap initialPage
          (EvChange FrecipientName (lit "  Jamie Rivera ") :: Sample.filledIn
             ++ [EvChange FrecipientName (lit "  Jamie Rivera ")]).

(** What the page sends for it. *)
Definition sentData : CallRequest :=
  mkCallRequest (lit "Agentic Assistant") (Some []) (lit "Jamie Rivera")
                (lit "+15559876543") (lit "Confirm the 10 AM meeting.")
                (Some []).

(** A request with both optional fields. *)
Definition fullRequest : CallRequest :=
  mkCallRequest (lit "Ada") (Some (lit "+15550002222")) (lit "Jamie Rivera")
                (lit "+15559876543") (lit "Confirm the 10 AM meeting.")
                (Some (lit "Be brief.")).

Definition callParams : CallParams :=
  mkCallParams (lit "+15559876543") number
               (twimlOf (buildCallScript Sample.parsedBody)).

(** What happens on the page after the two requests of [Sample.twoInFlight]:
    the first is answered, the form is reset, edited and sent again. *)
Definition later : list PageEvent :=
  [EvSettle (lit "req-1") (Answered Sample.rejected);
   EvReset;
   EvChange FrecipientName (lit "Kim");
   EvSubmit (lit "req-3") (lit "t3");
   EvSettle (lit "req-2") (Broken Sample.syntaxError)].

End Cases.

(* ================================================================== *)
(** * Properties *)

(** ** Strings *)

Example trim_inner_space : trim (lit "  a b  ") = lit "a b".
Proof. reflexivity. Qed.

Example E164_fifteen_digits : test E164 (lit "123456789012345") = true.
Proof. reflexivity. Qed.

Example E164_sixteen_digits : test E164 (lit "1234567890123456") = false.
Proof. reflexivity. Qed.

Example E164_six_digits : test E164 (lit "123456") = false.
Proof. reflexivity. Qed.

Example E164_plus_only : test E164 (lit "+") = false.
Proof. reflexivity. Qed.

Example E164_inner_plus : test E164 (lit "1555+234567") = false.
Proof. reflexivity. Qed.

Example E164_double_plus : test E164 (lit "++15551234567") = false.
Proof. reflexivity. Qed.

Example escapeForXml_markup :
  escapeForXml (lit "Tom & Jerry's <show> &amp;")
  = lit "Tom &amp; Jerry&apos;s &lt;show&gt; &amp;amp;".
Proof. reflexivity. Qed.

Example unescapeXml_markup :
  unescapeXml (lit "Tom &amp; Jerry&apos;s &lt;show&gt; &amp;amp;")
  = lit "Tom & Jerry's <show> &amp;".
Proof. reflexivity. Qed.

Lemma jsstring_eqb_refl (a : jsstring) : jsstring_eqb a a = true.
Proof.
  induction a as [|x a IH]; simpl; [reflexivity|].
  unfold char16_eqb. now rewrite N.eqb_refl.
Qed.

Lemma jsstring_eqb_eq (a b : jsstring) : jsstring_eqb a b = true <-> a = b.
Proof.
  split.
  - revert b. induction a as [|x a IH]; intros [|y b]; simpl; try discriminate.
    + reflexivity.
    + intros H. apply andb_true_iff in H as [Hx Hab].
      apply N.eqb_eq in Hx. apply IH in Hab. congruence.
  - intros ->. apply jsstring_eqb_refl.
Qed.

Lemma jsstring_eqb_neq (a b : jsstring) : a <> b -> jsstring_eqb a b = false.
Proof.
  intros H. destruct (jsstring_eqb a b) eqn:E; [|reflexivity].
  apply jsstring_eqb_eq in E. contradiction.
Qed.

(** ** The recipient-number rule *)

(** C8: the recipientNumber rule of [requestSchema] accepts "+15551234567"
    and "5551234" and rejects "0123456789", "+1555" and "abc". *)
Theorem recipientNumber_examples (errorMap : ZodIssueCode -> jsstring) :
  accepts errorMap (sh_recipientNumber requestSchema) (lit "+15551234567") = true
  /\ accepts errorMap (sh_recipientNumber requestSchema) (lit "5551234") = true
  /\ accepts errorMap (sh_recipientNumber requestSchema) (lit "0123456789") = false
  /\ accepts errorMap (sh_recipientNumber requestSchema) (lit "+1555") = false
  /\ accepts errorMap (sh_recipientNumber requestSchema) (lit "abc") = false.
Proof. repeat split; reflexivity. Qed.

(** ** The schema, field by field *)

Section SchemaFacts.

Variable errorMap : ZodIssueCode -> jsstring.

Lemma parse_text_field (p : list jsstring) (n : nat) (v : option json) :
  map message (fst (parseString errorMap p [check_trim; check_min n None] v))
  = optList (textRuleViolation errorMap n v).
Proof.
  destruct v as [[| | |s| |]|]; try reflexivity.
  simpl. destruct (Nat.ltb _ _); reflexivity.
Qed.

Lemma parse_text_value (p : list jsstring) (n : nat) (s : jsstring) :
  snd (parseString errorMap p [check_trim; check_min n None]
                   (Some (JString s))) = trim s.
Proof. simpl. destruct (Nat.ltb _ _); reflexivity. Qed.

Lemma parse_phone_field (p : list jsstring) (v : option json) :
  map message (fst (parseString errorMap p (sh_recipientNumber requestSchema) v))
  = optList (phoneRuleViolation errorMap v).
Proof.
  destruct v as [[| | |s| |]|]; try reflexivity.
  simpl. destruct (test _ _); reflexivity.
Qed.

Lemma parse_phone_value (p : list jsstring) (s : jsstring) :
  snd (parseString errorMap p (sh_recipientNumber requestSchema)
                   (Some (JString s))) = trim s.
Proof. simpl. destruct (test _ _); reflexivity. Qed.

Lemma parse_optional_field (p : list jsstring) (v : option json) :
  absentOrText v = true ->
  parseOptional errorMap p [check_trim] v
  = ([], match v with Some (JString s) => Some (trim s) | _ => None end).
Proof. destruct v as [[| | |s| |]|]; simpl; intros H; congruence. Qed.

Lemma parse_optional_untyped (p : list jsstring) (v : option json) :
  absentOrText v = false ->
  fst (parseOptional errorMap p [check_trim] v)
  = [makeIssue errorMap (invalid_type PTstring (getParsedType v)) p None].
Proof. destruct v as [[| | |s| |]|]; simpl; intros H; congruence. Qed.

(** [safeParse] on an object, with the six field results named. *)
Lemma safeParse_object (sh : CallRequestShape) (props : list (jsstring * json)) :
  safeParse errorMap sh (JObject props) =
  let r1 := parseString errorMap [key_callerName] (sh_callerName sh)
                        (getProp key_callerName props) in
  let r2 := parseOptional errorMap [key_callerNumber] (sh_callerNumber sh)
                          (getProp key_callerNumber props) in
  let r3 := parseString errorMap [key_recipientName] (sh_recipientName sh)
                        (getProp key_recipientName props) in
  let r4 := parseString errorMap [key_recipientNumber]
                        (sh_recipientNumber sh)
                        (getProp key_recipientNumber props) in
  let r5 := parseString errorMap [key_objective] (sh_objective sh)
                        (getProp key_objective props) in
  let r6 := parseOptional errorMap [key_notes] (sh_notes sh)
                          (getProp key_notes props) in
  match fst r1 ++ fst r2 ++ fst r3 ++ fst r4 ++ fst r5 ++ fst r6 with
  | [] => ParseSuccess (mkCallRequest (snd r1) (snd r2) (snd r3) (snd r4)
                                      (snd r5) (snd r6))
  | issues => ParseError issues
  end.
Proof.
  unfold safeParse.
  destruct (parseString errorMap [key_callerName] _ _).
  destruct (parseOptional errorMap [key_callerNumber] _ _).
  destruct (parseString errorMap [key_recipientName] _ _).
  destruct (parseString errorMap [key_recipientNumber] _ _).
  destruct (parseString errorMap [key_objective] _ _).
  destruct (parseOptional errorMap [key_notes] _ _).
  reflexivity.
Qed.

Lemma safeParse_not_object (sh : CallRequestShape) (j : json) :
  (forall props, j <> JObject props) ->
  safeParse errorMap sh j =
  ParseError [makeIssue errorMap
                (invalid_type PTobject (getParsedType (Some j))) [] None].
Proof. destruct j; intros H; try reflexivity. now destruct (H props). Qed.

(** What a successful parse of the server's schema says about the input
    and about the record it returns. *)
Lemma safeParse_success (j : json) (p : CallRequest) :
  safeParse errorMap requestSchema j = ParseSuccess p ->
  exists props s1 s3 s4 s5,
    j = JObject props
    /\ getProp key_callerName props = Some (JString s1)
    /\ getProp key_recipientName props = Some (JString s3)
    /\ getProp key_recipientNumber props = Some (JString s4)
    /\ getProp key_objective props = Some (JString s5)
    /\ absentOrText (getProp key_callerNumber props) = true
    /\ absentOrText (getProp key_notes props) = true
    /\ p = mkCallRequest (trim s1)
             (match getProp key_callerNumber props with
              | Some (JString s) => Some (trim s) | _ => None end)
             (trim s3) (trim s4) (trim s5)
             (match getProp key_notes props with
              | Some (JString s) => Some (trim s) | _ => None end)
    /\ 2 <= List.length (trim s1)
    /\ 2 <= List.length (trim s3)
    /\ test E164 (trim s4) = true
    /\ 5 <= List.length (trim s5).
Proof.
  destruct j as [| | | | |props]; try discriminate.
  rewrite safeParse_object. cbv zeta.
  set (r1 := parseString _ [key_callerName] _ _).
  set (r2 := parseOptional _ [key_callerNumber] _ _).
  set (r3 := parseString _ [key_recipientName] _ _).
  set (r4 := parseString _ [key_recipientNumber] _ _).
  set (r5 := parseString _ [key_objective] _ _).
  set (r6 := parseOptional _ [key_notes] _ _).
  destruct (fst r1 ++ fst r2 ++ fst r3 ++ fst r4 ++ fst r5 ++ fst r6) eqn:E;
    [|discriminate].
  intros H. injection H as <-.
  apply app_eq_nil in E as [E1 E]. apply app_eq_nil in E as [E2 E].
  apply app_eq_nil in E as [E3 E]. apply app_eq_nil in E as [E4 E].
  apply app_eq_nil in E as [E5 E6].
  exists props.
  assert (O2 : absentOrText (getProp key_callerNumber props) = true).
  { destruct (absentOrText (getProp key_callerNumber props)) eqn:A; [reflexivity|].
    subst r2. simpl sh_callerNumber in E2.
    rewrite (parse_optional_untyped _ _ A) in E2. discriminate. }
  assert (O6 : absentOrText (getProp key_notes props) = true).
  { destruct (absentOrText (getProp key_notes props)) eqn:A; [reflexivity|].
    subst r6. simpl sh_notes in E6.
    rewrite (parse_optional_untyped _ _ A) in E6. discriminate. }
  subst r1 r2 r3 r4 r5 r6.
  simpl sh_callerName in *. simpl sh_callerNumber in *.
  simpl sh_recipientName in *. simpl sh_objective in *. simpl sh_notes in *.
  rewrite (parse_optional_field _ _ O2), (parse_optional_field _ _ O6).
  apply (f_equal (map message)) in E1, E3, E4, E5.
  rewrite parse_text_field in E1, E3, E5. rewrite parse_phone_field in E4.
  destruct (getProp key_callerName props) as [[| | |s1| |]|]; try discriminate.
  destruct (getProp key_recipientName props) as [[| | |s3| |]|]; try discriminate.
  destruct (getProp key_recipientNumber props) as [[| | |s4| |]|]; try discriminate.
  destruct (getProp key_objective props) as [[| | |s5| |]|]; try discriminate.
  exists s1, s3, s4, s5.
  rewrite !parse_text_value, parse_phone_value.
  simpl in E1, E3, E4, E5.
  destruct (Nat.ltb_spec (List.length (trim s1)) 2); [discriminate|].
  destruct (Nat.ltb_spec (List.length (trim s3)) 2); [discriminate|].
  destruct (Nat.ltb_spec (List.length (trim s5)) 5); [discriminate|].
  destruct (test E164 (trim s4)) eqn:T; [|discriminate].
  repeat split; try assumption; try reflexivity.
Qed.

End SchemaFacts.

(** ** The POST handler *)

Section RouteFacts.

Variable errorMap : ZodIssueCode -> jsstring.

Lemma POST_invalid env twilio (j : json) (i : ZodIssue) (rest : list ZodIssue) :
  safeParse errorMap requestSchema j = ParseError (i :: rest) ->
  POST errorMap env twilio (inr j) = ([], mkResponse 400 false (message i)).
Proof.
  intros H. unfold POST, POST_try, bind, ret. rewrite H. reflexivity.
Qed.

Lemma ensureTwilioEnv_missing (env : ProcessEnv) :
  truthy_opt (TWILIO_ACCOUNT_SID env) = false
  \/ truthy_opt (TWILIO_AUTH_TOKEN env) = false
  \/ truthy_opt (TWILIO_FROM_NUMBER env) = false ->
  ensureTwilioEnv env = throw (newError missingConfigMessage).
Proof.
  unfold ensureTwilioEnv.
  intros [H|[H|H]]; rewrite H; simpl; rewrite ?orb_true_r; reflexivity.
Qed.

Lemma ensureTwilioEnv_cases (env : ProcessEnv) :
  ensureTwilioEnv env = throw (newError missingConfigMessage)
  \/ exists cfg, ensureTwilioEnv env = ret cfg.
Proof.
  unfold ensureTwilioEnv.
  destruct (_ || _); [left|right; eexists]; reflexivity.
Qed.

Lemma POST_valid_missing_config env twilio (j : json) (p : CallRequest) :
  safeParse errorMap requestSchema j = ParseSuccess p ->
  ensureTwilioEnv env = throw (newError missingConfigMessage) ->
  POST errorMap env twilio (inr j)
  = ([ConsoleError (lit "Failed to queue call")
                   (newError missingConfigMessage)],
     mkResponse 500 false missingConfigMessage).
Proof.
  intros H E. unfold POST, POST_try, bind, ret. rewrite H, E. reflexivity.
Qed.

(** With a valid input and a complete configuration the handler goes on to
    the provider library: loading it, building the client and placing the
    call, where the first step that throws ends the [try] block. *)
Lemma POST_valid_configured env twilio (j : json) (p : CallRequest)
      (cfg : TwilioEnv) :
  safeParse errorMap requestSchema j = ParseSuccess p ->
  ensureTwilioEnv env = ret cfg ->
  let params := mkCallParams (recipientNumber p) (fromNumber cfg)
                             (twimlOf (buildCallScript p)) in
  let call := CallsCreate (accountSid cfg) (authToken cfg) params in
  POST errorMap env twilio (inr j)
  = match twilio with
    | inl e => POST_catch e
    | inr m =>
        match m (accountSid cfg) (authToken cfg) with
        | inl e => POST_catch e
        | inr client =>
            match client params with
            | inr callSid =>
                ([call], mkResponse 200 true (queuedMessage callSid))
            | inl e => (call :: fst (POST_catch e), snd (POST_catch e))
            end
        end
    end.
Proof.
  intros H E. cbv zeta.
  unfold POST, POST_try, importTwilio, twilioDefault, callsCreate, bind, ret,
    perform, throw.
  rewrite H, E.
  unfold ret, throw.
  destruct twilio as [e|m]; [reflexivity|].
  destruct (m _ _) as [e|client]; [reflexivity|].
  destruct (client _); reflexivity.
Qed.

Lemma parse_optional_messages (p : list jsstring) (v : option json) :
  map message (fst (parseOptional errorMap p [check_trim] v))
  = optList (optionalViolation errorMap v).
Proof. destruct v as [[| | |s| |]|]; reflexivity. Qed.

(** The messages of the issues of an object are the messages of its
    violations, and the parse succeeds exactly when there is none. *)
Lemma safeParse_violationTexts (props : list (jsstring * json)) :
  match safeParse errorMap requestSchema (JObject props) with
  | ParseSuccess _ => violationTexts errorMap props = []
  | ParseError issues => map message issues = violationTexts errorMap props
                         /\ issues <> []
  end.
Proof.
  rewrite (safeParse_object errorMap). cbv zeta. unfold violationTexts.
  rewrite <- (parse_text_field errorMap [key_callerName] 2).
  rewrite <- (parse_optional_messages [key_callerNumber]).
  rewrite <- (parse_text_field errorMap [key_recipientName] 2).
  rewrite <- (parse_phone_field errorMap [key_recipientNumber]).
  rewrite <- (parse_text_field errorMap [key_objective] 5).
  rewrite <- (parse_optional_messages [key_notes]).
  rewrite <- !map_app.
  change (sh_callerName requestSchema) with [check_trim; check_min 2 None].
  change (sh_callerNumber requestSchema) with [check_trim].
  change (sh_recipientName requestSchema) with [check_trim; check_min 2 None].
  change (sh_objective requestSchema) with [check_trim; check_min 5 None].
  change (sh_notes requestSchema) with [check_trim].
  destruct (_ ++ _) as [|i l]; [reflexivity|].
  split; [reflexivity | discriminate].
Qed.

Lemma POST_first_text env twilio (props : list (jsstring * json))
      (m : jsstring) (ms : list jsstring) :
  violationTexts errorMap props = m :: ms ->
  POST errorMap env twilio (inr (JObject props))
  = ([], mkResponse 400 false m).
Proof.
  intros V. pose proof (safeParse_violationTexts props) as S.
  destruct (safeParse errorMap requestSchema (JObject props))
    as [d|issues] eqn:E.
  - congruence.
  - destruct S as [S _]. rewrite V in S.
    destruct issues as [|i rest]; [discriminate|].
    injection S as <- _.
    exact (POST_invalid env twilio _ i rest E).
Qed.

(** C1 (as amended): for every untyped input.  For an object: (a) when a
    rule of callerName, recipientName, recipientNumber, objective is
    violated (every text trimmed before its length or pattern is checked)
    and either callerName is violated or callerNumber is absent or text, the
    answer is 400 with the message of the first violated field in that
    order, whatever notes is; (b) when callerName passes and callerNumber is
    there and is not text, the answer is 400 with the type-check message of
    callerNumber; (c) when the four rules pass, callerNumber is absent or
    text and notes is there and is not text, the answer is 400 with the
    type-check message of notes; (d) when the four rules pass and
    callerNumber and notes are absent or text, the input passes validation:
    as texts, callerNumber and notes never cause a failure.  For an input
    that is not an object the answer is 400 with the type-check message of
    the object itself. *)
Theorem validation_first_violation env twilio (input : json) :
  match input with
  | JObject props =>
      let name := textRuleViolation errorMap 2 (getProp key_callerName props) in
      let number := getProp key_callerNumber props in
      let notes := getProp key_notes props in
      (forall m, firstViolation errorMap props = Some m ->
                 name <> None \/ absentOrText number = true ->
                 POST errorMap env twilio (inr input)
                 = ([], mkResponse 400 false m))
      /\ (name = None -> absentOrText number = false ->
          POST errorMap env twilio (inr input)
          = ([], mkResponse 400 false
                   (errorMap (invalid_type PTstring (getParsedType number)))))
      /\ (firstViolation errorMap props = None ->
          absentOrText number = true -> absentOrText notes = false ->
          POST errorMap env twilio (inr input)
          = ([], mkResponse 400 false
                   (errorMap (invalid_type PTstring (getParsedType notes)))))
      /\ (firstViolation errorMap props = None ->
          absentOrText number = true -> absentOrText notes = true ->
          exists p, safeParse errorMap requestSchema input = ParseSuccess p)
  | _ =>
      POST errorMap env twilio (inr input)
      = ([], mkResponse 400 false
               (errorMap (invalid_type PTobject (getParsedType (Some input)))))
  end.
Proof.
  destruct input as [| | | | |props]; try reflexivity.
  cbv zeta.
  assert (Oyes : forall v, absentOrText v = true ->
                           optionalViolation errorMap v = None)
    by (intros [[| | |s| |]|]; simpl; congruence).
  assert (Ono : forall v, absentOrText v = false ->
                          optionalViolation errorMap v
                          = Some (errorMap (invalid_type PTstring
                                                         (getParsedType v))))
    by (intros [[| | |s| |]|]; simpl; congruence).
  pose proof (POST_first_text env twilio props) as P.
  pose proof (safeParse_violationTexts props) as S.
  unfold violationTexts in P, S. unfold firstViolation.
  destruct (textRuleViolation errorMap 2 (getProp key_callerName props))
    as [m1|].
  { repeat split; try discriminate.
    intros m Hm _. injection Hm as <-. eapply P. reflexivity. }
  split; [|split; [|split]].
  - intros m Hm [N|O]; [now destruct N|].
    rewrite (Oyes _ O) in P.
    destruct (textRuleViolation errorMap 2 (getProp key_recipientName props));
      [injection Hm as <-; eapply P; reflexivity|].
    destruct (phoneRuleViolation errorMap (getProp key_recipientNumber props));
      [injection Hm as <-; eapply P; reflexivity|].
    destruct (textRuleViolation errorMap 5 (getProp key_objective props));
      [injection Hm as <-; eapply P; reflexivity|].
    discriminate Hm.
  - intros _ O. rewrite (Ono _ O) in P. eapply P. reflexivity.
  - intros Hv O2 O6. rewrite (Oyes _ O2), (Ono _ O6) in P.
    destruct (textRuleViolation errorMap 2 (getProp key_recipientName props));
      [discriminate Hv|].
    destruct (phoneRuleViolation errorMap (getProp key_recipientNumber props));
      [discriminate Hv|].
    destruct (textRuleViolation errorMap 5 (getProp key_objective props));
      [discriminate Hv|].
    eapply P. reflexivity.
  - intros Hv O2 O6. rewrite (Oyes _ O2), (Oyes _ O6) in S.
    destruct (textRuleViolation errorMap 2 (getProp key_recipientName props));
      [discriminate Hv|].
    destruct (phoneRuleViolation errorMap (getProp key_recipientNumber props));
      [discriminate Hv|].
    destruct (textRuleViolation errorMap 5 (getProp key_objective props));
      [discriminate Hv|].
    destruct (safeParse errorMap requestSchema (JObject props)) as [d|issues].
    + now exists d.
    + destruct S as [S N]. simpl in S. apply map_eq_nil in S. contradiction.
Qed.

(** C2 (as amended): whatever is thrown while the request is processed is
    caught at the outermost boundary, logged, and answered with status 500:
    the message is the thrown error's own message when an [Error] was
    thrown and the generic server-error message for any other thrown
    value; the stack is never part of the answer. *)
Theorem POST_catches_thrown env twilio (request : Thrown + json) (e : Thrown) :
  snd (POST_try errorMap env twilio request) = inl e ->
  POST errorMap env twilio request
  = (fst (POST_try errorMap env twilio request)
       ++ [ConsoleError (lit "Failed to queue call") e],
     mkResponse 500 false
       (match e with
        | ThrownError m _ => m
        | ThrownOther _ => genericServerError
        end)).
Proof.
  unfold POST, try_catch.
  destruct (POST_try errorMap env twilio request) as [tr [e'|r]]; simpl;
    intros H; [injection H as ->; reflexivity | discriminate].
Qed.

(** The places where the [try] block can throw: reading the body, the
    configuration check, and the three steps of the provider library. *)
Lemma POST_try_throws env twilio (request : Thrown + json) (e : Thrown) :
  snd (POST_try errorMap env twilio request) = inl e ->
  request = inl e
  \/ (exists j p, request = inr j
        /\ safeParse errorMap requestSchema j = ParseSuccess p
        /\ ensureTwilioEnv env = throw e
        /\ e = newError missingConfigMessage)
  \/ (exists j p cfg, request = inr j
        /\ safeParse errorMap requestSchema j = ParseSuccess p
        /\ ensureTwilioEnv env = ret cfg
        /\ (twilio = inl e
            \/ (exists m, twilio = inr m
                  /\ m (accountSid cfg) (authToken cfg) = inl e)
            \/ (exists m client, twilio = inr m
                  /\ m (accountSid cfg) (authToken cfg) = inr client
                  /\ client (mkCallParams (recipientNumber p) (fromNumber cfg)
                                          (twimlOf (buildCallScript p)))
                     = inl e))).
Proof.
  destruct request as [e0|j].
  - simpl. intros H. left. congruence.
  - unfold POST_try, bind, ret, throw. cbn match.
    destruct (safeParse errorMap requestSchema j) as [p|issues] eqn:S;
      [|simpl; discriminate].
    destruct (ensureTwilioEnv_cases env) as [E|[cfg E]]; rewrite E.
    + unfold throw. simpl. intros H. injection H as <-.
      right; left. exists j, p. repeat split; assumption.
    + unfold ret, importTwilio, twilioDefault, callsCreate, bind, perform,
        throw, ret.
      destruct twilio as [e1|m].
      { simpl. intros H. injection H as <-.
        right; right. exists j, p, cfg. repeat split; try assumption.
        now left. }
      destruct (m _ _) as [e1|client] eqn:M.
      { simpl. intros H. injection H as <-.
        right; right. exists j, p, cfg. repeat split; try assumption.
        right; left. now exists m. }
      destruct (client _) as [e1|sid] eqn:T; simpl; [|discriminate].
      intros H. injection H as <-.
      right; right. exists j, p, cfg. repeat split; try assumption.
      right; right. now exists m, client.
Qed.

(** C3 (as amended): an input that fails validation (or a body that cannot
    be read) leads to no provider invocation at all; an input that passes
    validation under a complete configuration leads to at most one, and to
    exactly one when the provider library loads and builds its client, to
    none when one of these two steps throws. *)
Theorem provider_invocations env twilio :
  (forall e, providerCalls (fst (POST errorMap env twilio (inl e))) = 0)
  /\ (forall j issues,
         safeParse errorMap requestSchema j = ParseError issues ->
         providerCalls (fst (POST errorMap env twilio (inr j))) = 0)
  /\ (forall j p cfg,
         safeParse errorMap requestSchema j = ParseSuccess p ->
         ensureTwilioEnv env = ret cfg ->
         providerCalls (fst (POST errorMap env twilio (inr j))) <= 1
         /\ providerCalls (fst (POST errorMap env twilio (inr j)))
            = match twilio with
              | inl _ => 0
              | inr m =>
                  match m (accountSid cfg) (authToken cfg) with
                  | inl _ => 0
                  | inr _ => 1
                  end
              end).
Proof.
  split; [|split].
  - reflexivity.
  - intros j issues H. unfold POST, POST_try, bind, ret. rewrite H.
    reflexivity.
  - intros j p cfg H E.
    rewrite (POST_valid_configured env twilio j p cfg H E).
    destruct twilio as [e|m]; [simpl; lia|].
    destruct (m _ _) as [e|client]; [simpl; lia|].
    destruct (client _); simpl; lia.
Qed.

(** C4: for a validated request, when one of the three configuration
    values is absent (or empty) the configuration check throws its own
    error before the provider is touched: no provider call is among the
    effects, which sets the failure apart from a provider rejection, and
    the request is answered with a failure response. *)
Theorem missing_configuration_fails_fast env twilio (j : json) (p : CallRequest) :
  safeParse errorMap requestSchema j = ParseSuccess p ->
  truthy_opt (TWILIO_ACCOUNT_SID env) = false
  \/ truthy_opt (TWILIO_AUTH_TOKEN env) = false
  \/ truthy_opt (TWILIO_FROM_NUMBER env) = false ->
  ensureTwilioEnv env = throw (newError missingConfigMessage)
  /\ POST errorMap env twilio (inr j)
     = ([ConsoleError (lit "Failed to queue call")
                      (newError missingConfigMessage)],
        mkResponse 500 false missingConfigMessage)
  /\ providerCalls (fst (POST errorMap env twilio (inr j))) = 0.
Proof.
  intros H M.
  pose proof (ensureTwilioEnv_missing env M) as E.
  rewrite (POST_valid_missing_config env twilio j p H E).
  split; [exact E|]. split; reflexivity.
Qed.

End RouteFacts.

(** ** The script *)

Lemma truthy_app (a b : jsstring) : truthy (a ++ b) = truthy a || truthy b.
Proof. destruct a; reflexivity. Qed.

Lemma truthy_length (s : jsstring) : 1 <= List.length s -> truthy s = true.
Proof. destruct s; simpl; [lia | reflexivity]. Qed.

(** C7: for a valid request that carries neither notes nor a callerNumber
    the script is, in this order and separated by single spaces, the
    greeting, the introduction, the objective, the generic callback segment
    and the closing sentence, with no notes segment. *)
Theorem script_without_optionals (errorMap : ZodIssueCode -> jsstring)
        (j : json) (p : CallRequest) :
  safeParse errorMap requestSchema j = ParseSuccess p ->
  notes p = None ->
  callerNumber p = None ->
  buildCallScript p
  = greetingSegment (recipientName p) ++ lit " "
      ++ introductionSegment (callerName p) ++ lit " "
      ++ objective p ++ lit " "
      ++ genericCallbackSegment ++ lit " "
      ++ closingSegment.
Proof.
  intros S Hn Hc.
  destruct (safeParse_success errorMap j p S)
    as (props & s1 & s3 & s4 & s5 & _ & _ & _ & _ & _ & _ & _ & Hp & _ & _ & _ & L5).
  assert (To : truthy (objective p) = true).
  { rewrite Hp. simpl. apply truthy_length. lia. }
  unfold buildCallScript. rewrite Hn, Hc.
  unfold greetingSegment, introductionSegment, genericCallbackSegment,
    closingSegment.
  destruct (objective p) as [|o os]; [discriminate To|].
  destruct (callerName p); reflexivity.
Qed.

(** The script of a request with an objective, segment by segment. *)
Lemma buildCallScript_parts (p : CallRequest) :
  objective p <> [] ->
  buildCallScript p
  = join (lit " ")
      ([greetingSegment (recipientName p);
        introductionSegment (callerName p);
        objective p]
         ++ match notes p with
            | Some (n0 :: n) => [notesSegment (callerName p) (n0 :: n)]
            | _ => []
            end
         ++ [match callerNumber p with
             | Some (c0 :: c) => callbackSegment (c0 :: c)
             | _ => genericCallbackSegment
             end;
             closingSegment]).
Proof.
  intros Ho. destruct p as [a b c d o f]. simpl in Ho.
  unfold buildCallScript, greetingSegment, introductionSegment, notesSegment,
    callbackSegment, genericCallbackSegment, closingSegment.
  cbn [callerName callerNumber recipientName recipientNumber objective notes].
  destruct o as [|o0 o]; [contradiction|].
  destruct a as [|a0 a], b as [[|b0 b]|], f as [[|f0 f]|]; reflexivity.
Qed.

(** C10: when the callerNumber of a valid input trims to the empty string,
    the script is the one of the same request without a callerNumber: it
    carries the generic callback segment, after the greeting, the
    introduction, the objective and the notes segment if there are notes.
    When the notes trim to the empty string, the script is the one of the
    same request without notes: it has no notes segment, the callback
    segment follows the objective. *)
Theorem empty_optional_is_absent (errorMap : ZodIssueCode -> jsstring)
        (props : list (jsstring * json)) (p : CallRequest) :
  safeParse errorMap requestSchema (JObject props) = ParseSuccess p ->
  (forall s, getProp key_callerNumber props = Some (JString s) ->
             trim s = [] ->
             callerNumber p = Some []
             /\ buildCallScript p = buildCallScript (withoutCallerNumber p)
             /\ buildCallScript p
                = join (lit " ")
                    ([greetingSegment (recipientName p);
                      introductionSegment (callerName p);
                      objective p]
                       ++ match notes p with
                          | Some (n0 :: n) =>
                              [notesSegment (callerName p) (n0 :: n)]
                          | _ => []
                          end
                       ++ [genericCallbackSegment; closingSegment]))
  /\ (forall s, getProp key_notes props = Some (JString s) ->
                trim s = [] ->
                notes p = Some []
                /\ buildCallScript p = buildCallScript (withoutNotes p)
                /\ buildCallScript p
                   = join (lit " ")
                       [greetingSegment (recipientName p);
                        introductionSegment (callerName p);
                        objective p;
                        match callerNumber p with
                        | Some (c0 :: c) => callbackSegment (c0 :: c)
                        | _ => genericCallbackSegment
                        end;
                        closingSegment]).
Proof.
  intros S.
  destruct (safeParse_success errorMap _ p S)
    as (props' & s1 & s3 & s4 & s5 & Hj & _ & _ & _ & _ & _ & _ & Hp
        & _ & _ & _ & L5).
  injection Hj as <-.
  assert (Ho : objective p <> []).
  { rewrite Hp. simpl. intros E. rewrite E in L5. simpl in L5. lia. }
  pose proof (buildCallScript_parts p Ho) as B.
  split; intros s G T; rewrite G, T in Hp.
  - assert (C : callerNumber p = Some []) by (rewrite Hp; reflexivity).
    split; [exact C|]. split.
    + rewrite Hp. reflexivity.
    + rewrite B, C. reflexivity.
  - assert (N : notes p = Some []) by (rewrite Hp; reflexivity).
    split; [exact N|]. split.
    + rewrite Hp. reflexivity.
    + rewrite B, N. reflexivity.
Qed.

(** ** The escaping *)

Lemma replaceAll_unit (c : char16) (rep s : jsstring) :
  replaceAll [c] rep s
  = flat_map (fun x => if char16_eqb c x then rep else [x]) s.
Proof.
  unfold replaceAll. induction s as [|x s IH]; [reflexivity|].
  simpl. rewrite andb_true_r. destruct (char16_eqb c x); now rewrite IH.
Qed.

(** The five passes of [escapeForXml] amount to one pass over the input. *)
Lemma escapeForXml_units (s : jsstring) :
  escapeForXml s = flat_map (escapeUnit entities) s.
Proof.
  unfold escapeForXml. rewrite !replaceAll_unit.
  induction s as [|c s IH]; [reflexivity|].
  cbn [flat_map]. rewrite !flat_map_app, IH. f_equal.
  unfold entities, escapeUnit, char16_eqb, amp, dquote, apos, lt_sign, gt_sign.
  destruct (N.eqb_spec 38 c) as [<-|]; [reflexivity|].
  destruct (N.eqb_spec 34 c) as [<-|]; [reflexivity|].
  destruct (N.eqb_spec 39 c) as [<-|]; [reflexivity|].
  destruct (N.eqb_spec 60 c) as [<-|]; [reflexivity|].
  destruct (N.eqb_spec 62 c) as [<-|]; [reflexivity|].
  cbn [flat_map app].
  repeat match goal with
         | H : ?k <> c |- context [N.eqb ?k c] =>
             rewrite (proj2 (N.eqb_neq k c) H)
         end.
  cbn [flat_map app].
  repeat match goal with
         | H : ?k <> c |- context [N.eqb ?k c] =>
             rewrite (proj2 (N.eqb_neq k c) H); cbn [flat_map app]
         end.
  reflexivity.
Qed.

(** One pass of the unescaping over an escaped text, unit by unit. *)
Lemma replaceAll_units (pat rep : jsstring) (f g : char16 -> jsstring) :
  (forall c rest, replace_from pat rep 0 (f c ++ rest)
                  = g c ++ replace_from pat rep 0 rest) ->
  forall s, replaceAll pat rep (flat_map f s) = flat_map g s.
Proof.
  intros H s. unfold replaceAll.
  induction s as [|c s IH]; [reflexivity|].
  cbn [flat_map]. now rewrite H, IH.
Qed.

Ltac split_unit c :=
  unfold escapeUnit, char16_eqb, amp, dquote, apos, lt_sign, gt_sign;
  repeat match goal with
         | |- context [N.eqb ?k c] =>
             destruct (N.eqb_spec k c) as [<-|?Hne]; [reflexivity|]
         end.

Lemma starts_with_head (pat pat' : jsstring) (k c : char16) (rest : jsstring) :
  pat = k :: pat' -> k <> c -> starts_with pat (c :: rest) = false.
Proof.
  intros -> H. simpl. unfold char16_eqb.
  now rewrite (proj2 (N.eqb_neq k c) H).
Qed.

Ltac use_distinct c :=
  match goal with
  | H : 38%N <> c |- context [starts_with ?pat (c :: ?rest)] =>
      rewrite (starts_with_head pat _ 38%N c rest eq_refl H)
  end.

Lemma unescape_pass (n : nat) (k : char16) (ent : jsstring) :
  nth_error entities n = Some (k, ent) ->
  forall s,
    replaceAll ent [k] (flat_map (escapeUnit (firstn (S n) entities)) s)
    = flat_map (escapeUnit (firstn n entities)) s.
Proof.
  intros H. apply replaceAll_units. intros c rest.
  do 5 (destruct n as [|n];
        [injection H as <- <-; cbn [firstn entities]; split_unit c;
         cbn [app replace_from]; use_distinct c; reflexivity|]).
  destruct n; discriminate.
Qed.

Lemma flat_map_unit (s : jsstring) : flat_map (escapeUnit []) s = s.
Proof.
  induction s as [|c s IH]; [reflexivity|].
  cbn [flat_map]. rewrite IH. reflexivity.
Qed.

(** C6: escaping a script for the markup and then undoing every entity
    replacement gives the script back, whatever the text is. *)
Theorem unescape_escape (s : jsstring) : unescapeXml (escapeForXml s) = s.
Proof.
  rewrite escapeForXml_units. unfold unescapeXml.
  change (flat_map (escapeUnit entities) s)
    with (flat_map (escapeUnit (firstn 5 entities)) s).
  rewrite (unescape_pass 4 gt_sign (lit "&gt;") eq_refl).
  rewrite (unescape_pass 3 lt_sign (lit "&lt;") eq_refl).
  rewrite (unescape_pass 2 apos (lit "&apos;") eq_refl).
  rewrite (unescape_pass 1 dquote (lit "&quot;") eq_refl).
  rewrite (unescape_pass 0 amp (lit "&amp;") eq_refl).
  apply flat_map_unit.
Qed.

(** ** The activity log *)

Lemma updateLog_withOutcome (id : jsstring) (st : CallStatus) (msg : jsstring)
      (prev : list CallLogEntry) :
  updateLog id st msg prev
  = map (fun log => if jsstring_eqb (log_id log) id
                    then withOutcome st msg log else log) prev.
Proof. reflexivity. Qed.

Lemma updateLog_nth (id : jsstring) (st : CallStatus) (msg : jsstring)
      (prev : list CallLogEntry) (n : nat) (e : CallLogEntry) :
  nth_error prev n = Some e ->
  nth_error (updateLog id st msg prev) n
  = Some (if jsstring_eqb (log_id e) id then withOutcome st msg e else e).
Proof.
  intros H. rewrite updateLog_withOutcome, nth_error_map, H. reflexivity.
Qed.

Lemma updateLog_rev (id : jsstring) (st : CallStatus) (msg : jsstring)
      (prev : list CallLogEntry) :
  rev (updateLog id st msg prev) = updateLog id st msg (rev prev).
Proof. unfold updateLog. now rewrite map_rev. Qed.

Lemma settle_logs (id : jsstring) (r : RoundTrip) (s : PageState) :
  exists st msg, logs (handleSubmit_settle id r s) = updateLog id st msg (logs s).
Proof.
  destruct r as [payload|e]; simpl.
  - exists (if pl_success payload then succeeded else failed), (pl_message payload).
    destruct (pl_success payload); reflexivity.
  - exists failed, transportErrorMessage. reflexivity.
Qed.

Section PageFacts.

Variable errorMap : ZodIssueCode -> jsstring.

(** A step keeps the entries that are there, oldest first, and touches
    only those that carry the identifier of a settling request. *)
Lemma pageStep_frame (s : PageState) (ev : PageEvent) (k : nat)
      (e : CallLogEntry) :
  nth_error (rev (logs s)) k = Some e ->
  (forall id r, ev = EvSettle id r -> id <> log_id e) ->
  nth_error (rev (logs (pageStep errorMap s ev))) k = Some e.
Proof.
  intros H Hid. destruct ev as [f v| |id now|id r]; simpl.
  - exact H.
  - exact H.
  - unfold handleSubmit_begin.
    destruct (safeParse _ _ _); simpl; [|exact H].
    rewrite nth_error_app1; [exact H|].
    apply nth_error_Some. congruence.
  - destruct (settle_logs id r s) as (st & msg & ->).
    rewrite updateLog_rev, (updateLog_nth _ _ _ _ _ _ H).
    rewrite jsstring_eqb_neq; [reflexivity|].
    intros E. exact (Hid id r eq_refl (eq_sym E)).
Qed.

(** C5: whatever happens on the page (further submissions, edits, resets
    and the settling of other requests, in any order) an entry of the log
    is left as it is, in its place, by every resolution that does not carry
    its identifier. *)
Theorem settle_touches_own_entry_only (s : PageState) (evs : list PageEvent)
        (k : nat) (e : CallLogEntry) :
  nth_error (rev (logs s)) k = Some e ->
  (forall id r, In (EvSettle id r) evs -> id <> log_id e) ->
  nth_error (rev (logs (pageRun errorMap s evs))) k = Some e.
Proof.
  revert s. induction evs as [|ev evs IH]; intros s H Hid; [exact H|].
  simpl. apply IH.
  - apply pageStep_frame; [exact H|].
    intros id r ->. apply (Hid id r). now left.
  - intros id r Hin. apply (Hid id r). now right.
Qed.

End PageFacts.

(** Two resolutions for different identifiers commute: the log does not
    depend on which round trip comes back first. *)
Lemma updateLog_comm (id1 id2 : jsstring) (st1 st2 : CallStatus)
      (m1 m2 : jsstring) (l : list CallLogEntry) :
  id1 <> id2 ->
  updateLog id1 st1 m1 (updateLog id2 st2 m2 l)
  = updateLog id2 st2 m2 (updateLog id1 st1 m1 l).
Proof.
  intros H. unfold updateLog. rewrite !map_map. apply map_ext. intros e.
  destruct (jsstring_eqb (log_id e) id1) eqn:E1;
    destruct (jsstring_eqb (log_id e) id2) eqn:E2; simpl;
    rewrite ?E1, ?E2; try reflexivity.
  apply jsstring_eqb_eq in E1, E2. congruence.
Qed.

(** C9: when the round trip of a request is answered with a failure, its
    entry becomes [failed] (the status [error] of the source) with the
    returned message and the form keeps the entered values; when it is
    answered with a success, the entry becomes [succeeded] and the form is
    back at its defaults. *)
Theorem settle_outcome (s : PageState) (id : jsstring) (payload : Payload)
        (n : nat) (e : CallLogEntry) :
  nth_error (logs s) n = Some e ->
  log_id e = id ->
  let s' := handleSubmit_settle id (Answered payload) s in
  (pl_success payload = false ->
   nth_error (logs s') n = Some (withOutcome failed (pl_message payload) e)
   /\ form s' = form s)
  /\ (pl_success payload = true ->
      nth_error (logs s') n = Some (withOutcome succeeded (pl_message payload) e)
      /\ form s' = defaultForm).
Proof.
  intros H Hid. cbv zeta. unfold handleSubmit_settle.
  split; intros Hs; rewrite Hs; simpl;
    rewrite (updateLog_nth _ _ _ _ _ _ H), Hid, jsstring_eqb_refl;
    split; reflexivity.
Qed.

(** ** The properties at the sample inputs *)

Lemma validation_first_violation_witness :
  POST zodErrorMap Sample.env Sample.accepting
       (inr (JObject Sample.propsShortName))
  = ([], mkResponse 400 false
           (lit "String must contain at least 2 character(s)")).
Proof.
  apply (proj1 (validation_first_violation zodErrorMap Sample.env
                  Sample.accepting (JObject Sample.propsShortName))).
  - reflexivity.
  - right. reflexivity.
Defined.

(** An optional field that is not text is a validation failure of its own:
    no rule of the four required fields is violated and still the input is
    rejected, on account of callerNumber; and with a violated recipientName
    as well, the message is the one of callerNumber, which comes first in the
    shape. *)
Lemma validation_untyped_optional_counterexample :
  (firstViolation zodErrorMap Sample.propsNumericCallerNumber = None
   /\ POST zodErrorMap Sample.env Sample.accepting
           (inr (JObject Sample.propsNumericCallerNumber))
      = ([], mkResponse 400 false (lit "Expected string, received number")))
  /\ (firstViolation zodErrorMap Sample.propsNumericAndEmpty
      = Some (lit "String must contain at least 2 character(s)")
      /\ POST zodErrorMap Sample.env Sample.accepting
              (inr (JObject Sample.propsNumericAndEmpty))
         = ([], mkResponse 400 false (lit "Expected string, received number"))).
Proof. repeat split; reflexivity. Qed.

Lemma POST_catches_thrown_witness :
  snd (POST zodErrorMap Sample.env Sample.throwingText (inr Sample.body))
  = mkResponse 500 false genericServerError.
Proof.
  exact (f_equal snd
           (POST_catches_thrown zodErrorMap Sample.env Sample.throwingText
              (inr Sample.body) (ThrownOther (JString (lit "boom"))) eq_refl)).
Defined.

(** A thrown [Error] is not answered with the generic message: the answer
    carries the error's own message. *)
Lemma POST_generic_message_counterexample :
  POST zodErrorMap Sample.env Sample.accepting (inl Sample.syntaxError)
  = ([ConsoleError (lit "Failed to queue call") Sample.syntaxError],
     mkResponse 500 false (lit "Unexpected end of JSON input"))
  /\ lit "Unexpected end of JSON input" <> genericServerError.
Proof. split; [reflexivity | discriminate]. Qed.

Lemma provider_invocations_witness :
  providerCalls (fst (POST zodErrorMap Sample.env Sample.accepting
                           (inr (JObject Sample.propsShortName)))) = 0
  /\ providerCalls (fst (POST zodErrorMap Sample.env Sample.accepting
                              (inr Sample.body))) = 1.
Proof.
  destruct (provider_invocations zodErrorMap Sample.env Sample.accepting)
    as (_ & H0 & H1).
  split.
  - eapply H0. reflexivity.
  - exact (proj2 (H1 Sample.body Sample.parsedBody _ eq_refl eq_refl)).
Defined.

(** A valid body and a complete configuration do not always give a call:
    when the library refuses to build its client, as the Twilio library does
    for an account identifier that does not start with AC, the constructor
    throws before any call is placed and the request is answered 500. *)
Lemma provider_invocations_counterexample :
  safeParse zodErrorMap requestSchema Sample.body
  = ParseSuccess Sample.parsedBody
  /\ ensureTwilioEnv Sample.envOddSid
     = ret (mkTwilioEnv (lit "x") (lit "s3cret") (lit "+15550001111"))
  /\ POST zodErrorMap Sample.envOddSid Sample.strict (inr Sample.body)
     = ([ConsoleError (lit "Failed to queue call")
                      (newError (lit "accountSid must start with AC"))],
        mkResponse 500 false (lit "accountSid must start with AC"))
  /\ providerCalls (fst (POST zodErrorMap Sample.envOddSid Sample.strict
                              (inr Sample.body))) = 0.
Proof. repeat split; reflexivity. Qed.

Lemma missing_configuration_fails_fast_witness :
  ensureTwilioEnv Sample.envNoToken = throw (newError missingConfigMessage)
  /\ POST zodErrorMap Sample.envNoToken Sample.accepting (inr Sample.body)
     = ([ConsoleError (lit "Failed to queue call")
                      (newError missingConfigMessage)],
        mkResponse 500 false missingConfigMessage)
  /\ providerCalls (fst (POST zodErrorMap Sample.envNoToken Sample.accepting
                              (inr Sample.body))) = 0.
Proof.
  apply (missing_configuration_fails_fast zodErrorMap Sample.envNoToken
           Sample.accepting Sample.body Sample.parsedBody eq_refl).
  right; left; reflexivity.
Defined.

Lemma script_without_optionals_witness :
  buildCallScript Sample.parsedBody
  = lit "Hello Jamie Rivera, this is an automated call for you. Agentic Assistant asked me to share the following update. Confirm the 10 AM meeting. If you have any questions, please reach out to them at your convenience. Thank you and goodbye!".
Proof.
  exact (eq_trans
           (script_without_optionals zodErrorMap Sample.body Sample.parsedBody
              eq_refl eq_refl eq_refl)
           eq_refl).
Defined.

Lemma empty_optional_is_absent_witness :
  buildCallScript Sample.parsedBlankOptionals
  = lit "Hello Jamie Rivera, this is an automated call for you. Agentic Assistant asked me to share the following update. Confirm the 10 AM meeting. If you have any questions, please reach out to them at your convenience. Thank you and goodbye!"
  /\ buildCallScript Sample.parsedBlankOptionals
     = buildCallScript (withoutNotes Sample.parsedBlankOptionals).
Proof.
  destruct (empty_optional_is_absent zodErrorMap Sample.propsBlankOptionals
              Sample.parsedBlankOptionals eq_refl) as [Hc Hn].
  split.
  - exact (eq_trans (proj2 (proj2 (Hc (lit "   ") eq_refl eq_refl))) eq_refl).
  - exact (proj1 (proj2 (Hn (lit " ") eq_refl eq_refl))).
Defined.

(** Two requests in flight, the second one answered first: the entry of the
    first one, the oldest of the log, is as it was. *)
Lemma settle_touches_own_entry_only_witness :
  nth_error
    (rev (logs (pageRun zodErrorMap Sample.twoInFlight
                        [EvSettle (lit "req-2") (Answered Sample.accepted)])))
    0
  = Some (Sample.entry (lit "req-1") (lit "t1")).
Proof.
  apply settle_touches_own_entry_only.
  - reflexivity.
  - intros id r [H|[]]. injection H as <- _. discriminate.
Defined.

Lemma settle_outcome_witness :
  let s := handleSubmit_settle (lit "req-2") (Answered Sample.rejected)
                               Sample.twoInFlight in
  nth_error (logs s) 0
  = Some (withOutcome failed (lit "Authenticate")
                      (Sample.entry (lit "req-2") (lit "t2")))
  /\ form s = form Sample.twoInFlight.
Proof.
  exact (proj1 (settle_outcome Sample.twoInFlight (lit "req-2") Sample.rejected
                  0 (Sample.entry (lit "req-2") (lit "t2")) eq_refl eq_refl)
               eq_refl).
Defined.

(** The run of the two requests to the end, second answer first. *)
Example out_of_order_run :
  map (fun e => (log_id e, log_status e, log_responseMessage e))
      (logs (pageRun zodErrorMap Sample.twoInFlight
                     [EvSettle (lit "req-2") (Answered Sample.rejected);
                      EvSettle (lit "req-1") (Answered Sample.accepted)]))
  = [(lit "req-2", failed, lit "Authenticate");
     (lit "req-1", succeeded, queuedMessage (lit "CA42"))].
Proof. reflexivity. Qed.

(* ================================================================== *)
(** * Further properties *)

(** ** The pattern of the recipient number *)

Lemma test_RNone (s : jsstring) : test RNone s = false.
Proof. induction s as [|c s IH]; [reflexivity | exact IH]. Qed.

Lemma test_RAlt (a b : regex) (s : jsstring) :
  test (RAlt a b) s = test a s || test b s.
Proof.
  revert a b. induction s as [|c s IH]; intros a b; [reflexivity|].
  simpl. apply IH.
Qed.

(** A sequence whose first part matches nothing matches nothing. *)
Lemma test_RSeq_void (r r2 : regex) :
  (forall s, test r s = false) -> forall s, test (RSeq r r2) s = false.
Proof.
  intros H s. revert r H. induction s as [|c s IH]; intros r H.
  - simpl. now rewrite (H [] : nullable r = false).
  - simpl. rewrite (H [] : nullable r = false).
    apply IH. intros s'. exact (H (c :: s')).
Qed.

Lemma test_RSeq_RNone (r : regex) (s : jsstring) : test (RSeq RNone r) s = false.
Proof. apply test_RSeq_void. exact test_RNone. Qed.

Lemma test_RSeq_REps (r : regex) (s : jsstring) : test (RSeq REps r) s = test r s.
Proof.
  destruct s as [|c s]; [reflexivity|].
  simpl. now rewrite test_RAlt, test_RSeq_RNone.
Qed.

Lemma test_RSeq_range (lo hi : char16) (r : regex) (s : jsstring) :
  test (RSeq (RRange lo hi) r) s
  = match s with
    | [] => false
    | c :: s' => ((lo <=? c) && (c <=? hi))%N && test r s'
    end.
Proof.
  destruct s as [|c s]; [reflexivity|].
  simpl. destruct ((lo <=? c) && (c <=? hi))%N.
  - apply test_RSeq_REps.
  - apply test_RSeq_RNone.
Qed.

Lemma test_repeat_digits (lo hi : nat) (s : jsstring) :
  test (RRepeat lo hi (RRange 48%N 57%N)) s
  = Nat.leb lo (List.length s) && Nat.leb (List.length s) hi
      && forallb isDigit s.
Proof.
  revert lo hi. induction s as [|c s IH]; intros lo hi.
  - simpl. rewrite orb_false_r, andb_true_r.
    destruct lo; reflexivity.
  - cbn [test deriv List.length forallb].
    destruct hi as [|hi].
    + rewrite test_RNone. cbn [Nat.leb]. now rewrite andb_false_r.
    + unfold isDigit at 1.
      destruct ((48 <=? c) && (c <=? 57))%N.
      * rewrite test_RSeq_REps, IH.
        destruct lo; reflexivity.
      * rewrite test_RSeq_RNone. cbn [andb]. now rewrite andb_false_r.
Qed.

Lemma range_single (k c : char16) :
  ((k <=? c) && (c <=? k))%N = char16_eqb k c.
Proof.
  unfold char16_eqb. destruct (N.eqb_spec k c) as [->|H].
  - now rewrite N.leb_refl.
  - destruct (N.leb_spec k c), (N.leb_spec c k); try reflexivity. lia.
Qed.

Lemma test_optional_unit (k : char16) (r : regex) (c : char16) (s : jsstring) :
  test (RSeq (ROpt (RChar k)) r) (c :: s)
  = (char16_eqb k c && test r s) || test r (c :: s).
Proof.
  unfold ROpt, RChar. cbn [test deriv nullable Nat.eqb orb Nat.pred].
  rewrite test_RAlt, range_single. f_equal.
  destruct (char16_eqb k c); cbn [andb].
  - destruct s as [|d s]; [reflexivity|].
    cbn [test deriv nullable Nat.eqb orb andb].
    rewrite test_RAlt. rewrite test_RSeq_void; [reflexivity|].
    intros t. now rewrite test_RAlt, test_RSeq_RNone, test_RNone.
  - apply test_RSeq_void. intros t. apply test_RSeq_RNone.
Qed.

(** X1: the pattern [/^\+?[1-9]\d{6,14}$/] accepts a text exactly when it is an
    optional plus sign, a digit from 1 to 9 and then six to fourteen digits,
    with nothing before or after. *)
Theorem E164_accepts_exactly (s : jsstring) : test E164 s = e164Text s.
Proof.
  assert (D : forall t, test (RSeq (RRange 49%N 57%N)
                                   (RRepeat 6 14 (RRange 48%N 57%N))) t
                        = e164Digits t).
  { intros t. rewrite test_RSeq_range. destruct t as [|d ds]; [reflexivity|].
    rewrite test_repeat_digits. unfold e164Digits, isNonZeroDigit.
    now rewrite !andb_assoc. }
  destruct s as [|c s]; [reflexivity|].
  unfold E164. rewrite test_optional_unit, !D. reflexivity.
Qed.

(** ** Trimming *)

Lemma trimStart_idempotent (s : jsstring) : trimStart (trimStart s) = trimStart s.
Proof.
  induction s as [|c s IH]; [reflexivity|].
  simpl. destruct (isWhiteSpace c) eqn:W; [exact IH|].
  simpl. now rewrite W.
Qed.

Lemma trimStart_keeps (l m : jsstring) (c : char16) :
  isWhiteSpace c = false -> trimStart (l ++ c :: m) = trimStart l ++ c :: m.
Proof.
  intros W. induction l as [|x l IH]; simpl.
  - now rewrite W.
  - destruct (isWhiteSpace x); [exact IH | reflexivity].
Qed.

Lemma trimEnd_idempotent (s : jsstring) : trimEnd (trimEnd s) = trimEnd s.
Proof. unfold trimEnd. now rewrite rev_involutive, trimStart_idempotent. Qed.

Lemma trimEnd_head (c : char16) (s : jsstring) :
  isWhiteSpace c = false -> trimEnd (c :: s) = c :: trimEnd s.
Proof.
  intros W. unfold trimEnd. simpl.
  rewrite (trimStart_keeps (rev s) [] c W), rev_app_distr. reflexivity.
Qed.

Lemma trimStart_head (s : jsstring) :
  trimStart s = [] \/ exists c t, trimStart s = c :: t /\ isWhiteSpace c = false.
Proof.
  induction s as [|c s IH]; [now left|].
  simpl. destruct (isWhiteSpace c) eqn:W; [exact IH|].
  right. now exists c, s.
Qed.

Lemma trim_idempotent (s : jsstring) : trim (trim s) = trim s.
Proof.
  unfold trim. destruct (trimStart_head s) as [E|(c & t & E & W)]; rewrite E.
  - reflexivity.
  - rewrite (trimEnd_head c t W). simpl. rewrite W.
    rewrite <- (trimEnd_head c t W). apply trimEnd_idempotent.
Qed.

(** ** The schema as a whole *)

Section SchemaWhole.

Variable errorMap : ZodIssueCode -> jsstring.

Lemma app6_nil {A} (l1 l2 l3 l4 l5 l6 : list A) :
  l1 ++ l2 ++ l3 ++ l4 ++ l5 ++ l6 = []
  <-> l1 = [] /\ l2 = [] /\ l3 = [] /\ l4 = [] /\ l5 = [] /\ l6 = [].
Proof.
  split.
  - intros E.
    apply app_eq_nil in E as [-> E]. apply app_eq_nil in E as [-> E].
    apply app_eq_nil in E as [-> E]. apply app_eq_nil in E as [-> E].
    apply app_eq_nil in E as [-> ->]. repeat split.
  - intros (-> & -> & -> & -> & -> & ->). reflexivity.
Qed.

(** Success of [safeParse] on an object: no field raised an issue, and the
    record holds the six parsed values. *)
Lemma safeParse_object_success (sh : CallRequestShape)
      (props : list (jsstring * json)) (d : CallRequest) :
  let r1 := parseString errorMap [key_callerName] (sh_callerName sh)
                        (getProp key_callerName props) in
  let r2 := parseOptional errorMap [key_callerNumber] (sh_callerNumber sh)
                          (getProp key_callerNumber props) in
  let r3 := parseString errorMap [key_recipientName] (sh_recipientName sh)
                        (getProp key_recipientName props) in
  let r4 := parseString errorMap [key_recipientNumber] (sh_recipientNumber sh)
                        (getProp key_recipientNumber props) in
  let r5 := parseString errorMap [key_objective] (sh_objective sh)
                        (getProp key_objective props) in
  let r6 := parseOptional errorMap [key_notes] (sh_notes sh)
                          (getProp key_notes props) in
  safeParse errorMap sh (JObject props) = ParseSuccess d
  <-> (fst r1 = [] /\ fst r2 = [] /\ fst r3 = [] /\ fst r4 = []
       /\ fst r5 = [] /\ fst r6 = [])
      /\ d = mkCallRequest (snd r1) (snd r2) (snd r3) (snd r4) (snd r5) (snd r6).
Proof.
  cbv zeta. rewrite safeParse_object. cbv zeta.
  rewrite <- app6_nil.
  destruct (_ ++ _) as [|i l].
  - split.
    + intros H. injection H as <-. now split.
    + intros [_ ->]. reflexivity.
  - split; [discriminate|]. intros [H _]. discriminate H.
Qed.

(** X3: a failed parse always reports at least one issue, so that the
    handler's fallback text for an empty list of issues is never used. *)
Theorem safeParse_error_nonempty (sh : CallRequestShape) (input : json)
        (issues : list ZodIssue) :
  safeParse errorMap sh input = ParseError issues -> issues <> [].
Proof.
  destruct input as [| | | | |props];
    try (simpl; intros H; injection H as <-; discriminate).
  rewrite safeParse_object. cbv zeta.
  destruct (_ ++ _) as [|i l]; [discriminate|].
  intros H. injection H as <-. discriminate.
Qed.

End SchemaWhole.

Section SchemaAgreement.

Variables errorMap errorMap' : ZodIssueCode -> jsstring.

Lemma runChecks_same (p p' : list jsstring) (cs cs' : ZodString) :
  Forall2 sameCheck cs cs' ->
  forall data,
    snd (runChecks errorMap p cs data) = snd (runChecks errorMap' p' cs' data)
    /\ (fst (runChecks errorMap p cs data) = []
        <-> fst (runChecks errorMap' p' cs' data) = []).
Proof.
  induction 1 as [|c c' cs cs' Hc _ IH]; intros data.
  - simpl. split; [reflexivity | tauto].
  - destruct Hc as [|n m m'|re m m']; simpl.
    + apply IH.
    + destruct (IH data) as [Hs Hi].
      destruct (runChecks errorMap p cs data) as [i d].
      destruct (runChecks errorMap' p' cs' data) as [i' d'].
      simpl in Hs, Hi.
      destruct (Nat.ltb _ _); simpl; split; try assumption.
      split; discriminate.
    + destruct (IH data) as [Hs Hi].
      destruct (runChecks errorMap p cs data) as [i d].
      destruct (runChecks errorMap' p' cs' data) as [i' d'].
      simpl in Hs, Hi.
      destruct (test _ _); simpl; split; try assumption.
      split; discriminate.
Qed.

Lemma parseString_same (p p' : list jsstring) (cs cs' : ZodString)
      (v : option json) :
  Forall2 sameCheck cs cs' ->
  snd (parseString errorMap p cs v) = snd (parseString errorMap' p' cs' v)
  /\ (fst (parseString errorMap p cs v) = []
      <-> fst (parseString errorMap' p' cs' v) = []).
Proof.
  intros H. destruct v as [[| | |s| |]|];
    try (simpl; split; [reflexivity | split; discriminate]).
  simpl. now apply runChecks_same.
Qed.

Lemma parseOptional_same (p p' : list jsstring) (cs cs' : ZodString)
      (v : option json) :
  Forall2 sameCheck cs cs' ->
  snd (parseOptional errorMap p cs v) = snd (parseOptional errorMap' p' cs' v)
  /\ (fst (parseOptional errorMap p cs v) = []
      <-> fst (parseOptional errorMap' p' cs' v) = []).
Proof.
  intros H. destruct v as [j|]; [|simpl; split; [reflexivity | tauto]].
  unfold parseOptional.
  destruct (parseString_same p p' cs cs' (Some j) H) as [Hs Hi].
  destruct (parseString errorMap p cs (Some j)) as [i d].
  destruct (parseString errorMap' p' cs' (Some j)) as [i' d'].
  simpl in *. split; [now f_equal | exact Hi].
Qed.

(** Two shapes that differ in their messages at most accept the same inputs
    and return the same record, whatever the error maps. *)
Lemma safeParse_same (sh sh' : CallRequestShape) (input : json)
      (d : CallRequest) :
  sameShape sh sh' ->
  safeParse errorMap sh input = ParseSuccess d
  <-> safeParse errorMap' sh' input = ParseSuccess d.
Proof.
  intros (H1 & H2 & H3 & H4 & H5 & H6).
  destruct input as [| | | | |props]; try (simpl; split; discriminate).
  rewrite !safeParse_object_success. cbv zeta.
  destruct (parseString_same [key_callerName] [key_callerName] _ _
              (getProp key_callerName props) H1) as [-> ->].
  destruct (parseOptional_same [key_callerNumber] [key_callerNumber] _ _
              (getProp key_callerNumber props) H2) as [-> ->].
  destruct (parseString_same [key_recipientName] [key_recipientName] _ _
              (getProp key_recipientName props) H3) as [-> ->].
  destruct (parseString_same [key_recipientNumber] [key_recipientNumber] _ _
              (getProp key_recipientNumber props) H4) as [-> ->].
  destruct (parseString_same [key_objective] [key_objective] _ _
              (getProp key_objective props) H5) as [-> ->].
  destruct (parseOptional_same [key_notes] [key_notes] _ _
              (getProp key_notes props) H6) as [-> ->].
  reflexivity.
Qed.

Lemma schemas_sameShape : sameShape callRequestSchema requestSchema.
Proof. repeat split; simpl; repeat constructor. Qed.

Lemma runChecks_kinds (p : list jsstring) (cs cs' : ZodString) :
  Forall2 sameCheck cs cs' ->
  forall data,
    map issueKind (fst (runChecks errorMap p cs data))
    = map issueKind (fst (runChecks errorMap' p cs' data)).
Proof.
  induction 1 as [|c c' cs cs' Hc Hcs IH]; intros data; [reflexivity|].
  destruct Hc as [|n m m'|re m m']; simpl.
  - apply IH.
  - pose proof (IH data) as Hk.
    destruct (runChecks errorMap p cs data) as [i d].
    destruct (runChecks errorMap' p cs' data) as [i' d'].
    simpl in Hk. destruct (Nat.ltb _ _); simpl; [f_equal|]; exact Hk.
  - pose proof (IH data) as Hk.
    destruct (runChecks errorMap p cs data) as [i d].
    destruct (runChecks errorMap' p cs' data) as [i' d'].
    simpl in Hk. destruct (test _ _); simpl; [|f_equal]; exact Hk.
Qed.

Lemma parseString_kinds (p : list jsstring) (cs cs' : ZodString)
      (v : option json) :
  Forall2 sameCheck cs cs' ->
  map issueKind (fst (parseString errorMap p cs v))
  = map issueKind (fst (parseString errorMap' p cs' v)).
Proof.
  intros H. destruct v as [[| | |s| |]|]; try reflexivity.
  simpl. now apply runChecks_kinds.
Qed.

Lemma parseOptional_kinds (p : list jsstring) (cs cs' : ZodString)
      (v : option json) :
  Forall2 sameCheck cs cs' ->
  map issueKind (fst (parseOptional errorMap p cs v))
  = map issueKind (fst (parseOptional errorMap' p cs' v)).
Proof.
  intros H. destruct v as [j|]; [|reflexivity].
  unfold parseOptional.
  pose proof (parseString_kinds p cs cs' (Some j) H) as K.
  destruct (parseString errorMap p cs (Some j)) as [i d].
  destruct (parseString errorMap' p cs' (Some j)) as [i' d'].
  exact K.
Qed.

(** Two shapes that differ in their messages at most give, on any input,
    the same record or else issues of the same kinds in the same order. *)
Lemma safeParse_kinds (sh sh' : CallRequestShape) (input : json) :
  sameShape sh sh' ->
  match safeParse errorMap sh input, safeParse errorMap' sh' input with
  | ParseSuccess d, ParseSuccess d' => d = d'
  | ParseError l, ParseError l' => map issueKind l = map issueKind l'
  | _, _ => False
  end.
Proof.
  intros H.
  destruct input as [| | | | |props]; try reflexivity.
  pose proof H as Hsh.
  destruct H as (H1 & H2 & H3 & H4 & H5 & H6).
  assert (K : forall l l', safeParse errorMap sh (JObject props) = ParseError l ->
                           safeParse errorMap' sh' (JObject props) = ParseError l' ->
                           map issueKind l = map issueKind l').
  { intros l l'. rewrite !safeParse_object. cbv zeta.
    pose proof (parseString_kinds [key_callerName] _ _
                  (getProp key_callerName props) H1) as K1.
    pose proof (parseOptional_kinds [key_callerNumber] _ _
                  (getProp key_callerNumber props) H2) as K2.
    pose proof (parseString_kinds [key_recipientName] _ _
                  (getProp key_recipientName props) H3) as K3.
    pose proof (parseString_kinds [key_recipientNumber] _ _
                  (getProp key_recipientNumber props) H4) as K4.
    pose proof (parseString_kinds [key_objective] _ _
                  (getProp key_objective props) H5) as K5.
    pose proof (parseOptional_kinds [key_notes] _ _
                  (getProp key_notes props) H6) as K6.
    set (L := fst (parseString errorMap [key_callerName] _ _) ++ _).
    set (L' := fst (parseString errorMap' [key_callerName] _ _) ++ _).
    assert (KL : map issueKind L = map issueKind L').
    { subst L L'. rewrite !map_app. now rewrite K1, K2, K3, K4, K5, K6. }
    clearbody L L'.
    destruct L as [|i l0]; [discriminate|].
    destruct L' as [|i' l0']; [discriminate|].
    intros Hl Hl'. injection Hl as <-. injection Hl' as <-. exact KL. }
  destruct (safeParse errorMap sh (JObject props)) as [d|l] eqn:S;
    destruct (safeParse errorMap' sh' (JObject props)) as [d'|l'] eqn:S'.
  - apply (safeParse_same sh sh' (JObject props) d Hsh) in S. congruence.
  - apply (safeParse_same sh sh' (JObject props) d Hsh) in S. congruence.
  - apply (safeParse_same sh sh' (JObject props) d' Hsh) in S'. congruence.
  - now apply K.
Qed.

(** X4: the page's schema and the handler's schema accept exactly the same
    inputs and normalise them to the same record; on an input they reject
    they raise the same issues, in number, code, path and order: only the
    texts of the issues differ. *)
Theorem client_server_schemas_agree (input : json) :
  match safeParse errorMap callRequestSchema input,
        safeParse errorMap' requestSchema input with
  | ParseSuccess d, ParseSuccess d' => d = d'
  | ParseError l, ParseError l' => map issueKind l = map issueKind l'
  | _, _ => False
  end.
Proof. apply safeParse_kinds. exact schemas_sameShape. Qed.

End SchemaAgreement.

Section SchemaCharacterised.

Variable errorMap : ZodIssueCode -> jsstring.

Lemma parse_text_result (p : list jsstring) (n : nat) (v : option json) :
  let r := parseString errorMap p [check_trim; check_min n None] v in
  match requiredText v with
  | Some t => snd r = t /\ (fst r = [] <-> Nat.leb n (List.length t) = true)
  | None => fst r <> []
  end.
Proof.
  destruct v as [[| | |s| |]|]; try (simpl; discriminate).
  simpl. rewrite Nat.leb_antisym.
  destruct (Nat.ltb _ _); simpl; split; try reflexivity;
    split; (discriminate || reflexivity).
Qed.

Lemma parse_phone_result (p : list jsstring) (v : option json) :
  let r := parseString errorMap p (sh_recipientNumber requestSchema) v in
  match requiredText v with
  | Some t => snd r = t /\ (fst r = [] <-> e164Text t = true)
  | None => fst r <> []
  end.
Proof.
  destruct v as [[| | |s| |]|]; try (simpl; discriminate).
  simpl. rewrite <- E164_accepts_exactly.
  destruct (test _ _); simpl; split; try reflexivity;
    split; (discriminate || reflexivity).
Qed.

Lemma parse_optional_result (p : list jsstring) (v : option json) :
  let r := parseOptional errorMap p [check_trim] v in
  match optionalText v with
  | Some o => r = ([], o)
  | None => fst r <> []
  end.
Proof. destruct v as [[| | |s| |]|]; simpl; (reflexivity || discriminate). Qed.

Ltac field_fails H :=
  split; [intros [(? & ? & ? & ? & ? & ?) _]; exfalso; apply H; assumption
        | discriminate].

(** The schema of the handler accepts an input exactly when the direct
    validator does, and returns the same record. *)
Lemma safeParse_validate (input : json) (d : CallRequest) :
  safeParse errorMap requestSchema input = ParseSuccess d
  <-> validate input = Some d.
Proof.
  destruct input as [| | | | |props]; try (simpl; split; discriminate).
  rewrite safeParse_object_success. cbv zeta. unfold validate.
  pose proof (parse_text_result [key_callerName] 2
                (getProp key_callerName props)) as R1.
  pose proof (parse_optional_result [key_callerNumber]
                (getProp key_callerNumber props)) as R2.
  pose proof (parse_text_result [key_recipientName] 2
                (getProp key_recipientName props)) as R3.
  pose proof (parse_phone_result [key_recipientNumber]
                (getProp key_recipientNumber props)) as R4.
  pose proof (parse_text_result [key_objective] 5
                (getProp key_objective props)) as R5.
  pose proof (parse_optional_result [key_notes]
                (getProp key_notes props)) as R6.
  cbv zeta in R1, R2, R3, R4, R5, R6.
  change (sh_callerName requestSchema) with [check_trim; check_min 2 None].
  change (sh_callerNumber requestSchema) with [check_trim].
  change (sh_recipientName requestSchema) with [check_trim; check_min 2 None].
  change (sh_objective requestSchema) with [check_trim; check_min 5 None].
  change (sh_notes requestSchema) with [check_trim].
  destruct (requiredText (getProp key_callerName props)) as [a|];
    [destruct R1 as [-> ->] | field_fails R1].
  destruct (optionalText (getProp key_callerNumber props)) as [b|];
    [rewrite R2 | field_fails R2].
  destruct (requiredText (getProp key_recipientName props)) as [c|];
    [destruct R3 as [-> ->] | field_fails R3].
  destruct (requiredText (getProp key_recipientNumber props)) as [e|];
    [destruct R4 as [-> ->] | field_fails R4].
  destruct (requiredText (getProp key_objective props)) as [o|];
    [destruct R5 as [-> ->] | field_fails R5].
  destruct (optionalText (getProp key_notes props)) as [f|];
    [rewrite R6 | field_fails R6].
  cbn [fst snd].
  destruct (Nat.leb 2 (List.length a)); [|split; [intros [(H & _) _]|]; discriminate].
  destruct (Nat.leb 2 (List.length c));
    [|split; [intros [(_ & _ & H & _) _]|]; discriminate].
  destruct (e164Text e);
    [|split; [intros [(_ & _ & _ & H & _) _]|]; discriminate].
  destruct (Nat.leb 5 (List.length o));
    [|split; [intros [(_ & _ & _ & _ & H & _) _]|]; discriminate].
  cbn [andb]. split.
  - intros [_ ->]. reflexivity.
  - intros H. injection H as <-. repeat split.
Qed.

End SchemaCharacterised.

(** ** From the page to the handler *)

Lemma getProp_formValue (fm : CallRequestFormState) :
  getProp key_callerName (match formValue fm with JObject l => l | _ => [] end)
  = Some (JString (callerName fm))
  /\ getProp key_callerNumber (match formValue fm with JObject l => l | _ => [] end)
     = option_map JString (callerNumber fm)
  /\ getProp key_recipientName (match formValue fm with JObject l => l | _ => [] end)
     = Some (JString (recipientName fm))
  /\ getProp key_recipientNumber (match formValue fm with JObject l => l | _ => [] end)
     = Some (JString (recipientNumber fm))
  /\ getProp key_objective (match formValue fm with JObject l => l | _ => [] end)
     = Some (JString (objective fm))
  /\ getProp key_notes (match formValue fm with JObject l => l | _ => [] end)
     = option_map JString (notes fm).
Proof. destruct fm as [a [b|] c d e [f|]]; repeat split; reflexivity. Qed.

(** The direct validator on a form: the checks on the trimmed fields. *)
Lemma validate_formValue (fm : CallRequestFormState) :
  validate (formValue fm)
  = if Nat.leb 2 (List.length (trim (callerName fm)))
       && Nat.leb 2 (List.length (trim (recipientName fm)))
       && e164Text (trim (recipientNumber fm))
       && Nat.leb 5 (List.length (trim (objective fm)))
    then Some (trimmedForm fm) else None.
Proof.
  destruct (getProp_formValue fm) as (G1 & G2 & G3 & G4 & G5 & G6).
  unfold validate. unfold formValue in *. cbn iota in *.
  rewrite G1, G2, G3, G4, G5, G6.
  destruct fm as [a [b|] c d e [f|]]; reflexivity.
Qed.

Lemma trimmedForm_idempotent (fm : CallRequestFormState) :
  trimmedForm (trimmedForm fm) = trimmedForm fm.
Proof.
  destruct fm as [a [b|] c d e [f|]]; unfold trimmedForm; simpl;
    now rewrite !trim_idempotent.
Qed.

Lemma validate_normalised (fm : CallRequestFormState) (d : CallRequest) :
  validate (formValue fm) = Some d -> validate (formValue d) = Some d.
Proof.
  rewrite validate_formValue.
  destruct (_ && _) eqn:C; [|discriminate].
  intros H. injection H as <-.
  rewrite validate_formValue.
  destruct fm as [a [b|] c e o [f|]]; unfold trimmedForm in *; simpl in *;
    rewrite !trim_idempotent, C; reflexivity.
Qed.

(** X6: what the page sends always passes the handler's validation, and the
    handler works on the very record the page validated. *)
Theorem sent_request_passes_validation
        (errorMap errorMap' : ZodIssueCode -> jsstring)
        (id now : jsstring) (s s1 : PageState) (d : CallRequest) :
  handleSubmit_begin errorMap id now s = (s1, Some d) ->
  safeParse errorMap' requestSchema (sentBody d) = ParseSuccess d.
Proof.
  unfold handleSubmit_begin.
  destruct (safeParse errorMap callRequestSchema (formValue (form s)))
    as [d'|issues] eqn:S; [|discriminate].
  intros H. injection H as _ <-.
  apply (safeParse_same errorMap errorMap' _ _ _ _ schemas_sameShape) in S.
  apply safeParse_validate in S. apply safeParse_validate.
  unfold sentBody. exact (validate_normalised _ _ S).
Qed.

(** ** Submitting the form *)

(** The page's schema on a form: the issues of the four checked fields, in
    the order of the shape, each with the message written in the schema. *)
Lemma safeParse_form (errorMap : ZodIssueCode -> jsstring)
      (fm : CallRequestFormState) :
  safeParse errorMap callRequestSchema (formValue fm)
  = match
      (if Nat.ltb (List.length (trim (callerName fm))) 2
       then [makeIssue errorMap (too_small 2) [key_callerName]
               (Some (lit "Caller name is required"))] else [])
      ++ (if Nat.ltb (List.length (trim (recipientName fm))) 2
          then [makeIssue errorMap (too_small 2) [key_recipientName]
                  (Some (lit "Recipient name is required"))] else [])
      ++ (if test E164 (trim (recipientNumber fm)) then []
          else [makeIssue errorMap invalid_string_regex [key_recipientNumber]
                  (Some (lit "Enter an E.164 phone number, e.g. +15551234567"))])
      ++ (if Nat.ltb (List.length (trim (objective fm))) 5
          then [makeIssue errorMap (too_small 5) [key_objective]
                  (Some (lit "Please describe what the agent should say"))]
          else [])
    with
    | [] => ParseSuccess (trimmedForm fm)
    | issues => ParseError issues
    end.
Proof.
  destruct fm as [a b c d e f].
  destruct (getProp_formValue (mkCallRequest a b c d e f))
    as (G1 & G2 & G3 & G4 & G5 & G6).
  unfold formValue in *. cbn iota in G1, G2, G3, G4, G5, G6.
  rewrite safeParse_object. cbv zeta.
  rewrite G1, G2, G3, G4, G5, G6.
  destruct b as [b|], f as [f|];
    cbn [callRequestSchema sh_callerName sh_callerNumber sh_recipientName
         sh_recipientNumber sh_objective sh_notes parseString parseOptional
         runChecks option_map callerName callerNumber recipientName
         recipientNumber objective notes];
    destruct (Nat.ltb (List.length (trim a)) 2),
             (Nat.ltb (List.length (trim c)) 2),
             (test E164 (trim d)),
             (Nat.ltb (List.length (trim e)) 5); reflexivity.
Qed.

Lemma safeParse_form_valid (errorMap : ZodIssueCode -> jsstring)
      (fm : CallRequestFormState) :
  clientErrors fm = [] ->
  safeParse errorMap callRequestSchema (formValue fm)
  = ParseSuccess (trimmedForm fm).
Proof.
  rewrite safeParse_form. unfold clientErrors.
  destruct (Nat.ltb (List.length (trim (callerName fm))) 2),
           (Nat.ltb (List.length (trim (recipientName fm))) 2),
           (test E164 (trim (recipientNumber fm))),
           (Nat.ltb (List.length (trim (objective fm))) 5);
    intros H; try discriminate H; reflexivity.
Qed.

(** X7: a submission either adds one queued entry at the head of the log,
    a snapshot of the trimmed form, and sends the trimmed form, or, when a
    checked field fails, leaves the log alone, sends nothing and shows for
    each failing field the message of the page's own schema.  zod's built-in
    texts never reach the page. *)
Theorem handleSubmit_begin_outcome (errorMap : ZodIssueCode -> jsstring)
        (id now : jsstring) (s : PageState) :
  (clientErrors (form s) = [] ->
   handleSubmit_begin errorMap id now s
   = (mkPage (form s)
             (mkLog id now queued (trim (recipientName (form s)))
                    (trim (recipientNumber (form s)))
                    (trim (objective (form s)))
                    (option_map trim (notes (form s))) sendingMessage
                :: logs s)
             true (formErrors s),
      Some (trimmedForm (form s))))
  /\ (clientErrors (form s) <> [] ->
      handleSubmit_begin errorMap id now s
      = (mkPage (form s) (logs s) (isSubmitting s) (clientErrors (form s)),
         None)).
Proof.
  unfold handleSubmit_begin. rewrite safeParse_form. unfold clientErrors.
  destruct (Nat.ltb (List.length (trim (callerName (form s)))) 2),
           (Nat.ltb (List.length (trim (recipientName (form s)))) 2),
           (test E164 (trim (recipientNumber (form s)))),
           (Nat.ltb (List.length (trim (objective (form s)))) 5);
    (split; [intros H | intros H]);
    try discriminate H; try (exfalso; apply H; reflexivity); reflexivity.
Qed.

(** X8: once a request was answered with a success the form is back at its
    defaults, which do not validate: submitting again without typing adds no
    entry and sends no second request. *)
Theorem no_resubmission_after_success (errorMap : ZodIssueCode -> jsstring)
        (id : jsstring) (payload : Payload) (s : PageState)
        (id' now : jsstring) :
  pl_success payload = true ->
  let s1 := handleSubmit_settle id (Answered payload) s in
  snd (handleSubmit_begin errorMap id' now s1) = None
  /\ logs (fst (handleSubmit_begin errorMap id' now s1)) = logs s1.
Proof.
  intros H. cbv zeta. unfold handleSubmit_settle. rewrite H.
  split; reflexivity.
Qed.

(** ** The handler, case by case *)

Section RouteCases.

Variable errorMap : ZodIssueCode -> jsstring.

Lemma validate_none_error (j : json) :
  validate j = None ->
  exists i rest, safeParse errorMap requestSchema j = ParseError (i :: rest).
Proof.
  intros V. destruct (safeParse errorMap requestSchema j) as [p|issues] eqn:S.
  - apply safeParse_validate in S. congruence.
  - destruct issues as [|i rest].
    + now apply safeParse_error_nonempty in S.
    + now exists i, rest.
Qed.

(** The ways through the handler. *)
Lemma POST_outcome (env : ProcessEnv) (twilio : Provider)
      (request : Thrown + json) :
  (exists e, request = inl e
     /\ POST errorMap env twilio request = POST_catch e)
  \/ (exists j i rest, request = inr j /\ validate j = None
        /\ safeParse errorMap requestSchema j = ParseError (i :: rest)
        /\ POST errorMap env twilio request
           = ([], mkResponse 400 false (message i)))
  \/ (exists j p, request = inr j /\ validate j = Some p
        /\ ensureTwilioEnv env = throw (newError missingConfigMessage)
        /\ POST errorMap env twilio request
           = POST_catch (newError missingConfigMessage))
  \/ (exists j p cfg e, request = inr j /\ validate j = Some p
        /\ ensureTwilioEnv env = ret cfg
        /\ (twilio = inl e
            \/ exists m, twilio = inr m
                         /\ m (accountSid cfg) (authToken cfg) = inl e)
        /\ POST errorMap env twilio request = POST_catch e)
  \/ (exists j p cfg m client callSid, request = inr j /\ validate j = Some p
        /\ ensureTwilioEnv env = ret cfg
        /\ twilio = inr m
        /\ m (accountSid cfg) (authToken cfg) = inr client
        /\ client (mkCallParams (recipientNumber p) (fromNumber cfg)
                                (twimlOf (buildCallScript p))) = inr callSid
        /\ POST errorMap env twilio request
           = ([CallsCreate (accountSid cfg) (authToken cfg)
                 (mkCallParams (recipientNumber p) (fromNumber cfg)
                               (twimlOf (buildCallScript p)))],
              mkResponse 200 true (queuedMessage callSid)))
  \/ (exists j p cfg m client e, request = inr j /\ validate j = Some p
        /\ ensureTwilioEnv env = ret cfg
        /\ twilio = inr m
        /\ m (accountSid cfg) (authToken cfg) = inr client
        /\ client (mkCallParams (recipientNumber p) (fromNumber cfg)
                                (twimlOf (buildCallScript p))) = inl e
        /\ POST errorMap env twilio request
           = (CallsCreate (accountSid cfg) (authToken cfg)
                (mkCallParams (recipientNumber p) (fromNumber cfg)
                              (twimlOf (buildCallScript p)))
                :: fst (POST_catch e),
              snd (POST_catch e))).
Proof.
  destruct request as [e|j].
  - left. exists e. split; reflexivity.
  - right. destruct (validate j) as [p|] eqn:V.
    + right. pose proof (proj2 (safeParse_validate errorMap j p) V) as S.
      destruct (ensureTwilioEnv_cases env) as [E|[cfg E]].
      * left. exists j, p. repeat split; try assumption.
        exact (POST_valid_missing_config errorMap env twilio j p S E).
      * right.
        pose proof (POST_valid_configured errorMap env twilio j p cfg S E) as P.
        cbv zeta in P.
        destruct twilio as [e|m].
        { left. exists j, p, cfg, e. repeat split; try assumption. now left. }
        destruct (m _ _) as [e|client] eqn:M.
        { left. exists j, p, cfg, e. repeat split; try assumption.
          right. now exists m. }
        right.
        destruct (client _) as [e|callSid] eqn:T.
        -- right. exists j, p, cfg, m, client, e. repeat split; assumption.
        -- left. exists j, p, cfg, m, client, callSid.
           repeat split; assumption.
    + left. destruct (validate_none_error j V) as (i & rest & S).
      exists j, i, rest. repeat split; try assumption.
      exact (POST_invalid errorMap env twilio j i rest S).
Qed.

(** X9: the answer is 200 with the success flag, or 400 or 500 without
    it; a 400 comes with no effect at all, a 200 with the one provider call
    and nothing logged, and a 500 always ends with the error being logged. *)
Theorem POST_status_and_effects (env : ProcessEnv) (twilio : Provider)
        (request : Thrown + json) :
  let tr := fst (POST errorMap env twilio request) in
  let r := snd (POST errorMap env twilio request) in
  (status r = 200%N /\ success r = true
   /\ exists sid token params, tr = [CallsCreate sid token params])
  \/ (status r = 400%N /\ success r = false /\ tr = [])
  \/ (status r = 500%N /\ success r = false
      /\ exists tr' e, tr = tr' ++ [ConsoleError (lit "Failed to queue call") e]
                       /\ providerCalls tr' <= 1).
Proof.
  cbv zeta.
  destruct (POST_outcome env twilio request)
    as [(e & _ & ->)|[(j & i & rest & _ & _ & _ & ->)
       |[(j & p & _ & _ & _ & ->)|[(j & p & cfg & e & _ & _ & _ & _ & ->)
       |[(j & p & cfg & m & c & sid & _ & _ & _ & _ & _ & _ & ->)
       |(j & p & cfg & m & c & e & _ & _ & _ & _ & _ & _ & ->)]]]]].
  - right; right. repeat split. exists [], e. split; [reflexivity | simpl; lia].
  - right; left. repeat split.
  - right; right. repeat split.
    exists [], (newError missingConfigMessage).
    split; [reflexivity | simpl; lia].
  - right; right. repeat split. exists [], e. split; [reflexivity | simpl; lia].
  - left. repeat split. now eexists _, _, _.
  - right; right. repeat split.
    eexists [_], e. split; [reflexivity | simpl; lia].
Qed.

(** X10: the handler answers 400 exactly when the body could be read and
    the validator rejects it; this includes every body that is not an
    object. *)
Theorem POST_400_iff_invalid (env : ProcessEnv) (twilio : Provider)
        (request : Thrown + json) :
  status (snd (POST errorMap env twilio request)) = 400%N
  <-> exists j, request = inr j /\ validate j = None.
Proof.
  destruct (POST_outcome env twilio request)
    as [(e & -> & ->)|[(j & i & rest & -> & V & _ & ->)
       |[(j & p & -> & V & _ & ->)|[(j & p & cfg & e & -> & V & _ & _ & ->)
       |[(j & p & cfg & m & c & sid & -> & V & _ & _ & _ & _ & ->)
       |(j & p & cfg & m & c & e & -> & V & _ & _ & _ & _ & ->)]]]]]; simpl.
  - split; [discriminate|]. intros (j & H & _). discriminate.
  - split; [|reflexivity]. intros _. now exists j.
  - split; [discriminate|]. intros (j' & H & V'). injection H as <-. congruence.
  - split; [discriminate|]. intros (j' & H & V'). injection H as <-. congruence.
  - split; [discriminate|]. intros (j' & H & V'). injection H as <-. congruence.
  - split; [discriminate|]. intros (j' & H & V'). injection H as <-. congruence.
Qed.

End RouteCases.

(** X2: the schema of the handler accepts an input exactly when the direct
    validator does (an object whose four required fields are texts that,
    once trimmed, have the required length or the shape of a phone number,
    and whose two optional fields are absent or texts) and the record it
    returns holds the trimmed texts. *)
Theorem validator_accepts_exactly (errorMap : ZodIssueCode -> jsstring)
        (input : json) (d : CallRequest) :
  safeParse errorMap requestSchema input = ParseSuccess d
  <-> validate input = Some d.
Proof. exact (safeParse_validate errorMap input d). Qed.

(** ** The configuration *)

(** X12: the configuration check passes exactly when the three variables
    are set and none is the empty string, and it returns them unchanged. *)
Theorem ensureTwilioEnv_iff (env : ProcessEnv) (cfg : TwilioEnv) :
  ensureTwilioEnv env = ret cfg
  <-> (TWILIO_ACCOUNT_SID env = Some (accountSid cfg) /\ accountSid cfg <> [])
      /\ (TWILIO_AUTH_TOKEN env = Some (authToken cfg) /\ authToken cfg <> [])
      /\ (TWILIO_FROM_NUMBER env = Some (fromNumber cfg) /\ fromNumber cfg <> []).
Proof.
  destruct env as [a b c], cfg as [x y z]. unfold ensureTwilioEnv. simpl.
  destruct a as [[|a0 a]|], b as [[|b0 b]|], c as [[|c0 c]|]; simpl;
    (split;
     [ intros H; try discriminate H; injection H as <- <- <-;
       repeat split; discriminate
     | intros ((H1 & N1) & (H2 & N2) & (H3 & N3));
       try discriminate H1; try discriminate H2; try discriminate H3;
       injection H1 as <-; injection H2 as <-; injection H3 as <-;
       first [ reflexivity
             | exfalso; now apply N1
             | exfalso; now apply N2
             | exfalso; now apply N3 ] ]).
Qed.

(** X11: with a valid body and a complete configuration the handler loads
    the provider library and builds a client with the configured
    credentials; if one of these steps throws, no call is placed and the
    answer is 500 with what was thrown.  Otherwise it hands exactly one call
    to the provider: to the trimmed recipient number, which has the shape of
    a phone number, from the configured number, speaking the escaped script.
    It answers 200 with the identifier of the call when the provider accepts,
    and 500 with the provider's message, without a second attempt, when it
    throws. *)
Theorem POST_dispatch_outcome (errorMap : ZodIssueCode -> jsstring)
        (twilio : Provider) (j : json) (p : CallRequest)
        (sid token number : jsstring) :
  validate j = Some p ->
  sid <> [] -> token <> [] -> number <> [] ->
  let env := mkEnv (Some sid) (Some token) (Some number) in
  let params := mkCallParams (recipientNumber p) number
                             (twimlOf (buildCallScript p)) in
  let call := CallsCreate sid token params in
  let logged e := ConsoleError (lit "Failed to queue call") e in
  let failure e :=
    mkResponse 500 false
      (match e with
       | ThrownError m _ => m
       | ThrownOther _ => genericServerError
       end) in
  e164Text (p_to params) = true
  /\ POST errorMap env twilio (inr j)
     = match twilio with
       | inl e => ([logged e], failure e)
       | inr m =>
           match m sid token with
           | inl e => ([logged e], failure e)
           | inr client =>
               match client params with
               | inr callSid =>
                   ([call], mkResponse 200 true (queuedMessage callSid))
               | inl e => ([call; logged e], failure e)
               end
           end
       end.
Proof.
  intros V Hs Ht Hn. cbv zeta. split.
  - destruct j as [| | | | |props]; try discriminate V.
    unfold validate in V.
    destruct (requiredText _) as [a|]; [|discriminate V].
    destruct (optionalText _) as [b|]; [|discriminate V].
    destruct (requiredText _) as [c|]; [|discriminate V].
    destruct (requiredText _) as [d|]; [|discriminate V].
    destruct (requiredText _) as [e|]; [|discriminate V].
    destruct (optionalText _) as [f|]; [|discriminate V].
    destruct (Nat.leb 2 (List.length a)); [|discriminate V].
    destruct (Nat.leb 2 (List.length c)); [|discriminate V].
    destruct (e164Text d) eqn:E; [|discriminate V].
    destruct (Nat.leb 5 (List.length e)); [|discriminate V].
    injection V as <-. exact E.
  - pose proof (proj2 (safeParse_validate errorMap j p) V) as S.
    assert (E : ensureTwilioEnv (mkEnv (Some sid) (Some token) (Some number))
                = ret (mkTwilioEnv sid token number)).
    { unfold ensureTwilioEnv. simpl.
      destruct sid, token, number; try contradiction; reflexivity. }
    rewrite (POST_valid_configured errorMap _ twilio j p _ S E). simpl.
    destruct twilio as [e|m]; [reflexivity|].
    destruct (m _ _) as [e|client]; [reflexivity|].
    destruct (client _); reflexivity.
Qed.

(** ** More on the escaping *)

Lemma escapeUnit_clean (x c : char16) :
  In c (escapeUnit entities x) -> isMarkup c = false.
Proof.
  unfold entities, escapeUnit, char16_eqb, amp, dquote, apos, lt_sign, gt_sign.
  destruct (N.eqb_spec 38 x) as [<-|H1].
  { simpl. intros H. repeat (destruct H as [<-|H]; [reflexivity|]). destruct H. }
  destruct (N.eqb_spec 34 x) as [<-|H2].
  { simpl. intros H. repeat (destruct H as [<-|H]; [reflexivity|]). destruct H. }
  destruct (N.eqb_spec 39 x) as [<-|H3].
  { simpl. intros H. repeat (destruct H as [<-|H]; [reflexivity|]). destruct H. }
  destruct (N.eqb_spec 60 x) as [<-|H4].
  { simpl. intros H. repeat (destruct H as [<-|H]; [reflexivity|]). destruct H. }
  destruct (N.eqb_spec 62 x) as [<-|H5].
  { simpl. intros H. repeat (destruct H as [<-|H]; [reflexivity|]). destruct H. }
  intros [<-|[]]. unfold isMarkup, char16_eqb, dquote, apos, lt_sign, gt_sign.
  rewrite (proj2 (N.eqb_neq _ _) H2), (proj2 (N.eqb_neq _ _) H3),
    (proj2 (N.eqb_neq _ _) H4), (proj2 (N.eqb_neq _ _) H5).
  reflexivity.
Qed.

(** X13: an escaped text holds no double quote, apostrophe, [<] or [>]:
    whatever the script says, it cannot close the [Say] element or open
    another one. *)
Theorem escapeForXml_no_markup (s : jsstring) (c : char16) :
  In c (escapeForXml s) -> isMarkup c = false.
Proof.
  rewrite escapeForXml_units. intros H.
  apply in_flat_map in H as (x & _ & H).
  exact (escapeUnit_clean x c H).
Qed.

(** X14: escaping goes through concatenation: a text can be escaped piece
    by piece. *)
Theorem escapeForXml_app (a b : jsstring) :
  escapeForXml (a ++ b) = escapeForXml a ++ escapeForXml b.
Proof. rewrite !escapeForXml_units. apply flat_map_app. Qed.

(** X15: a text without ampersand, quotes and angle brackets is left as it
    is. *)
Theorem escapeForXml_plain (s : jsstring) :
  (forall c, In c s -> char16_eqb amp c = false /\ isMarkup c = false) ->
  escapeForXml s = s.
Proof.
  rewrite escapeForXml_units. induction s as [|x s IH]; intros H; [reflexivity|].
  cbn [flat_map]. rewrite IH by (intros c Hc; apply H; now right).
  destruct (H x (or_introl eq_refl)) as [Ha Hm].
  unfold isMarkup in Hm.
  apply orb_false_iff in Hm as [Hm H4]. apply orb_false_iff in Hm as [Hm H3].
  apply orb_false_iff in Hm as [H1 H2].
  unfold entities, escapeUnit. now rewrite Ha, H1, H2, H3, H4.
Qed.

(** ** More on the script *)

(** X16: for a request with an objective the script is the greeting, the
    introduction, the objective, then the notes segment when there are
    notes, then the callback segment with the caller's number when there is
    one and the generic one otherwise, then the closing sentence, separated
    by single spaces. *)
Theorem buildCallScript_segments (p : CallRequest) :
  objective p <> [] ->
  buildCallScript p
  = join (lit " ")
      ([greetingSegment (recipientName p);
        introductionSegment (callerName p);
        objective p]
         ++ match notes p with
            | Some (n0 :: n) => [notesSegment (callerName p) (n0 :: n)]
            | _ => []
            end
         ++ [match callerNumber p with
             | Some (c0 :: c) => callbackSegment (c0 :: c)
             | _ => genericCallbackSegment
             end;
             closingSegment]).
Proof.
  intros Ho. destruct p as [a b c d o f]. simpl in Ho.
  unfold buildCallScript, greetingSegment, introductionSegment, notesSegment,
    callbackSegment, genericCallbackSegment, closingSegment.
  cbn [callerName callerNumber recipientName recipientNumber objective notes].
  destruct o as [|o0 o]; [contradiction|].
  destruct a as [|a0 a], b as [[|b0 b]|], f as [[|f0 f]|]; reflexivity.
Qed.

(** ** More on the activity log *)

Section PageMore.

Variable errorMap : ZodIssueCode -> jsstring.

Lemma pageStep_snapshot (s : PageState) (ev : PageEvent) (k : nat)
      (e : CallLogEntry) :
  nth_error (rev (logs s)) k = Some e ->
  exists e', nth_error (rev (logs (pageStep errorMap s ev))) k = Some e'
             /\ snapshot e' = snapshot e.
Proof.
  intros H. destruct ev as [f v| |id now|id r]; simpl.
  - now exists e.
  - now exists e.
  - unfold handleSubmit_begin.
    destruct (safeParse _ _ _); simpl; [|now exists e].
    exists e. split; [|reflexivity].
    rewrite nth_error_app1; [exact H|].
    apply nth_error_Some. congruence.
  - destruct (settle_logs id r s) as (st & msg & ->).
    rewrite updateLog_rev, (updateLog_nth _ _ _ _ _ _ H).
    destruct (jsstring_eqb _ _); eexists; split; reflexivity.
Qed.

(** X17: no event ever removes or moves an entry of the log, nor changes
    what it copied at submission (identifier, time, recipient, number,
    objective, notes): counted from the oldest, an entry stays in its place
    and only its status and message can change. *)
Theorem log_snapshot_immutable (s : PageState) (evs : list PageEvent)
        (k : nat) (e : CallLogEntry) :
  nth_error (rev (logs s)) k = Some e ->
  exists e', nth_error (rev (logs (pageRun errorMap s evs))) k = Some e'
             /\ snapshot e' = snapshot e.
Proof.
  revert s e. induction evs as [|ev evs IH]; intros s e H.
  - now exists e.
  - simpl. destruct (pageStep_snapshot s ev k e H) as (e1 & H1 & S1).
    destruct (IH _ _ H1) as (e2 & H2 & S2).
    exists e2. split; [exact H2 | congruence].
Qed.

End PageMore.

(** X18: two answers for different requests can come in either order: the
    whole state of the page ends up the same. *)
Theorem settle_commutes (id1 id2 : jsstring) (r1 r2 : RoundTrip)
        (s : PageState) :
  id1 <> id2 ->
  handleSubmit_settle id1 r1 (handleSubmit_settle id2 r2 s)
  = handleSubmit_settle id2 r2 (handleSubmit_settle id1 r1 s).
Proof.
  intros H.
  destruct r1 as [[[] m1]|e1], r2 as [[[] m2]|e2];
    unfold handleSubmit_settle, resetForm; simpl;
    rewrite (updateLog_comm id1 id2 _ _ _ _ _ H); reflexivity.
Qed.

(** X19: when the round trip breaks (no answer could be read) the entry of
    the request becomes [failed] with the fixed connectivity message, what
    was thrown is not shown, and the form and its errors stay as they are. *)
Theorem settle_broken (s : PageState) (id : jsstring) (err : Thrown)
        (n : nat) (e : CallLogEntry) :
  nth_error (logs s) n = Some e ->
  log_id e = id ->
  let s' := handleSubmit_settle id (Broken err) s in
  nth_error (logs s') n = Some (withOutcome failed transportErrorMessage e)
  /\ form s' = form s /\ formErrors s' = formErrors s
  /\ isSubmitting s' = false.
Proof.
  intros H Hid. cbv zeta. simpl.
  rewrite (updateLog_nth _ _ _ _ _ _ H), Hid, jsstring_eqb_refl.
  repeat split.
Qed.

(** ** The counters *)

Lemma updateLog_absent (id : jsstring) (st : CallStatus) (msg : jsstring)
      (l : list CallLogEntry) :
  ~ In id (map log_id l) -> updateLog id st msg l = l.
Proof.
  induction l as [|x l IH]; intros H; [reflexivity|].
  simpl. rewrite jsstring_eqb_neq.
  - f_equal. apply IH. intros Hin. apply H. now right.
  - intros E. apply H. now left.
Qed.

Lemma successfulCalls_cons (x : CallLogEntry) (l : list CallLogEntry) :
  successfulCalls (x :: l)
  = (if isSuccess (log_status x) then 1 else 0) + successfulCalls l.
Proof. unfold successfulCalls. simpl. destruct (isSuccess _); reflexivity. Qed.

Lemma successfulCalls_update (id : jsstring) (st : CallStatus) (msg : jsstring)
      (l : list CallLogEntry) (e : CallLogEntry) :
  NoDup (map log_id l) ->
  In e l -> log_id e = id -> isSuccess (log_status e) = false ->
  successfulCalls (updateLog id st msg l)
  = (if isSuccess st then 1 else 0) + successfulCalls l.
Proof.
  induction l as [|x l IH]; intros N Hin Hid Hs; [destruct Hin|].
  simpl in N. inversion N as [|? ? Hx N']; subst.
  change (updateLog (log_id e) st msg (x :: l))
    with ((if jsstring_eqb (log_id x) (log_id e)
           then withOutcome st msg x else x)
            :: updateLog (log_id e) st msg l).
  destruct Hin as [->|Hin].
  - rewrite jsstring_eqb_refl, !successfulCalls_cons.
    rewrite (updateLog_absent _ _ _ _ Hx). simpl. rewrite Hs. reflexivity.
  - rewrite jsstring_eqb_neq.
    + rewrite !successfulCalls_cons, (IH N' Hin eq_refl Hs). lia.
    + intros E. apply Hx. rewrite E. now apply in_map.
Qed.

(** X20: with distinct identifiers in the log, the answer to a request that
    is not yet counted as a success raises the success counter by one when
    it is a success and leaves it when it is a failure or the round trip
    broke; the total never changes when a request settles. *)
Theorem counters_on_settle (s : PageState) (id : jsstring) (r : RoundTrip)
        (e : CallLogEntry) :
  NoDup (map log_id (logs s)) ->
  In e (logs s) -> log_id e = id -> log_status e <> succeeded ->
  let s' := handleSubmit_settle id r s in
  totalCalls (logs s') = totalCalls (logs s)
  /\ successfulCalls (logs s')
     = match r with
       | Answered payload =>
           if pl_success payload then S (successfulCalls (logs s))
           else successfulCalls (logs s)
       | Broken _ => successfulCalls (logs s)
       end.
Proof.
  intros N Hin Hid Hst. cbv zeta.
  assert (Hs : isSuccess (log_status e) = false)
    by (destruct (log_status e); try reflexivity; contradiction).
  split.
  - destruct (settle_logs id r s) as (st & msg & ->).
    unfold totalCalls, updateLog. apply length_map.
  - destruct r as [[[] m]|err]; simpl;
      rewrite (successfulCalls_update _ _ _ _ _ N Hin Hid Hs); reflexivity.
Qed.

(** ** Editing the form *)

Lemma errGet_errDelete_same (k : jsstring) (e : FormErrors) :
  errGet k (errDelete k e) = None.
Proof.
  induction e as [|[k0 v] e IH]; [reflexivity|].
  simpl. destruct (jsstring_eqb k k0) eqn:E; [exact IH|].
  simpl. now rewrite E.
Qed.

Lemma errGet_errDelete_other (k k' : jsstring) (e : FormErrors) :
  k' <> k -> errGet k' (errDelete k e) = errGet k' e.
Proof.
  intros H. induction e as [|[k0 v] e IH]; [reflexivity|].
  simpl. destruct (jsstring_eqb k k0) eqn:E.
  - apply jsstring_eqb_eq in E. subst k0.
    now rewrite (jsstring_eqb_neq k' k H).
  - simpl. now rewrite IH.
Qed.

Lemma fieldKey_injective (f g : FormField) : fieldKey f = fieldKey g -> f = g.
Proof. destruct f, g; (reflexivity || discriminate). Qed.

(** X21: typing in a field sets that field to the typed text and takes away
    the error shown under it; the other fields, the errors shown under them
    and the log stay as they are. *)
Theorem onChange_field (f : FormField) (v : jsstring) (s : PageState) :
  let s' := onChange f v s in
  fieldValue f (form s') = v
  /\ shownError f (formErrors s') = None
  /\ (forall g, g <> f ->
                fieldValue g (form s') = fieldValue g (form s)
                /\ shownError g (formErrors s') = shownError g (formErrors s))
  /\ logs s' = logs s.
Proof.
  cbv zeta. unfold onChange. cbn [form formErrors logs].
  split; [destruct f; reflexivity|].
  split.
  - unfold shownError.
    destruct (truthy_opt (errGet (fieldKey f) (formErrors s))) eqn:T.
    + now rewrite errGet_errDelete_same.
    + destruct (errGet (fieldKey f) (formErrors s)) as [m|]; [|reflexivity].
      simpl in T. now rewrite T.
  - split; [|reflexivity].
    intros g Hg. split.
    + destruct f, g; try reflexivity; now destruct Hg.
    + unfold shownError.
      destruct (truthy_opt (errGet (fieldKey f) (formErrors s))); [|reflexivity].
      rewrite errGet_errDelete_other; [reflexivity|].
      intros E. apply Hg. now apply fieldKey_injective.
Qed.

(** ** From the form to the provider and back *)

(** X22: a form that passes the page's checks, sent to a configured
    handler, is never turned down by the handler's validation and reaches
    the provider at most once.  When the library loads, builds its client
    and accepts the call, that is exactly one call, the entry of the request
    ends [succeeded] with the identifier of the call and the form is reset;
    when the call is placed and the provider throws, the entry ends [failed]
    with the provider's message and the form is kept; when loading the
    library or building the client throws, no call is placed and the entry
    ends [failed] with what was thrown, the form kept. *)
Theorem page_request_end_to_end
        (errorMap errorMap' : ZodIssueCode -> jsstring)
        (s : PageState) (id now : jsstring) (twilio : Provider)
        (sid token number : jsstring) :
  clientErrors (form s) = [] ->
  sid <> [] -> token <> [] -> number <> [] ->
  let env := mkEnv (Some sid) (Some token) (Some number) in
  let d := trimmedForm (form s) in
  let s1 := fst (handleSubmit_begin errorMap id now s) in
  let params := mkCallParams (recipientNumber d) number
                             (twimlOf (buildCallScript d)) in
  let calls := providerCalls (fst (fetchCall errorMap' env twilio d)) in
  let s2 := handleSubmit_settle id (snd (fetchCall errorMap' env twilio d)) s1 in
  let entry st msg :=
    mkLog id now st (recipientName d) (recipientNumber d) (objective d)
          (notes d) msg in
  let failedWith e :=
    hd_error (logs s2)
    = Some (entry failed
                  (match e with
                   | ThrownError m _ => m
                   | ThrownOther _ => genericServerError
                   end))
    /\ form s2 = form s in
  snd (handleSubmit_begin errorMap id now s) = Some d
  /\ calls <= 1
  /\ match twilio with
     | inl e => calls = 0 /\ failedWith e
     | inr m =>
         match m sid token with
         | inl e => calls = 0 /\ failedWith e
         | inr client =>
             match client params with
             | inr callSid =>
                 calls = 1
                 /\ hd_error (logs s2)
                    = Some (entry succeeded (queuedMessage callSid))
                 /\ form s2 = defaultForm
             | inl e => calls = 1 /\ failedWith e
             end
         end
     end.
Proof.
  intros V Hs Ht Hn. cbv zeta.
  pose proof (safeParse_form_valid errorMap (form s) V) as S.
  assert (S' : safeParse errorMap' requestSchema
                 (sentBody (trimmedForm (form s)))
               = ParseSuccess (trimmedForm (form s))).
  { apply safeParse_validate. unfold sentBody.
    apply (validate_normalised (form s)). apply (safeParse_validate errorMap).
    apply (safeParse_same errorMap errorMap _ _ _ _ schemas_sameShape).
    exact S. }
  assert (E : ensureTwilioEnv (mkEnv (Some sid) (Some token) (Some number))
              = ret (mkTwilioEnv sid token number)).
  { unfold ensureTwilioEnv. simpl.
    destruct sid, token, number; try contradiction; reflexivity. }
  unfold handleSubmit_begin, fetchCall. rewrite S.
  rewrite (POST_valid_configured errorMap' _ twilio _ _ _ S' E).
  cbn [fst snd accountSid authToken fromNumber].
  split; [reflexivity|].
  destruct twilio as [e|m];
    [simpl; rewrite jsstring_eqb_refl; repeat split; lia|].
  destruct (m sid token) as [e|client];
    [simpl; rewrite jsstring_eqb_refl; repeat split; lia|].
  destruct (client _) as [e|callSid]; simpl;
    rewrite jsstring_eqb_refl; repeat split; lia.
Qed.

(** ** Keys the schema does not know *)

Lemma getProp_other (key k : jsstring) (v : json)
      (props : list (jsstring * json)) :
  key <> k -> getProp key ((k, v) :: props) = getProp key props.
Proof. intros H. simpl. now rewrite (jsstring_eqb_neq key k H). Qed.

(** X5: a property under a key that is not one of the six of the shape
    does not matter: the input is accepted or rejected, with the same record
    or the same issues, as without it. *)
Theorem unknown_key_ignored (errorMap : ZodIssueCode -> jsstring)
        (sh : CallRequestShape) (k : jsstring) (v : json)
        (props : list (jsstring * json)) :
  ~ In k shapeKeys ->
  safeParse errorMap sh (JObject ((k, v) :: props))
  = safeParse errorMap sh (JObject props).
Proof.
  intros H. unfold safeParse.
  rewrite !getProp_other; [reflexivity|..];
    intros E; apply H; rewrite <- E; simpl; tauto.
Qed.

(** ** The further properties at sample inputs *)

Lemma safeParse_error_nonempty_witness :
  [makeIssue zodErrorMap (invalid_type PTobject PTnull) [] None] <> [].
Proof.
  exact (safeParse_error_nonempty zodErrorMap requestSchema JNull _ eq_refl).
Defined.

Lemma sent_request_passes_validation_witness :
  safeParse zodErrorMap requestSchema (sentBody Cases.sentData)
  = ParseSuccess Cases.sentData.
Proof.
  exact (sent_request_passes_validation zodErrorMap zodErrorMap
           (lit "req-1") (lit "t1") Cases.filledPage
           (fst (handleSubmit_begin zodErrorMap (lit "req-1") (lit "t1")
                                    Cases.filledPage))
           Cases.sentData eq_refl).
Defined.

Lemma handleSubmit_begin_outcome_witness :
  handleSubmit_begin zodErrorMap (lit "req-1") (lit "t1") initialPage
  = (mkPage defaultForm [] false
       [(key_recipientName, lit "Recipient name is required");
        (key_recipientNumber,
         lit "Enter an E.164 phone number, e.g. +15551234567");
        (key_objective, lit "Please describe what the agent should say")],
     None).
Proof.
  apply (proj2 (handleSubmit_begin_outcome zodErrorMap (lit "req-1") (lit "t1")
                  initialPage)).
  discriminate.
Defined.

Lemma no_resubmission_after_success_witness :
  snd (handleSubmit_begin zodErrorMap (lit "req-3") (lit "t3")
         (handleSubmit_settle (lit "req-1") (Answered Sample.accepted)
                              Sample.twoInFlight)) = None
  /\ logs (fst (handleSubmit_begin zodErrorMap (lit "req-3") (lit "t3")
                  (handleSubmit_settle (lit "req-1") (Answered Sample.accepted)
                                       Sample.twoInFlight)))
     = logs (handleSubmit_settle (lit "req-1") (Answered Sample.accepted)
                                 Sample.twoInFlight).
Proof.
  exact (no_resubmission_after_success zodErrorMap (lit "req-1")
           Sample.accepted Sample.twoInFlight (lit "req-3") (lit "t3") eq_refl).
Defined.

Lemma POST_dispatch_outcome_witness :
  e164Text (lit "+15559876543") = true
  /\ POST zodErrorMap Sample.env Sample.accepting (inr Sample.body)
     = ([CallsCreate Cases.sid Cases.token Cases.callParams],
        mkResponse 200 true (queuedMessage (lit "CA42"))).
Proof.
  apply (POST_dispatch_outcome zodErrorMap Sample.accepting Sample.body
           Sample.parsedBody Cases.sid Cases.token Cases.number);
    (reflexivity || discriminate).
Defined.

Lemma escapeForXml_no_markup_witness : isMarkup amp = false.
Proof.
  apply (escapeForXml_no_markup (lit "<&>") amp). simpl. tauto.
Defined.

Lemma escapeForXml_plain_witness :
  escapeForXml (lit "Hi Jamie.") = lit "Hi Jamie.".
Proof.
  apply escapeForXml_plain. intros c H. simpl in H.
  repeat (destruct H as [<-|H]; [split; reflexivity|]). destruct H.
Defined.

Lemma buildCallScript_segments_witness :
  buildCallScript Cases.fullRequest
  = lit "Hello Jamie Rivera, this is an automated call for you. Ada asked me to share the following update. Confirm the 10 AM meeting. Additional context from Ada: Be brief. If you have questions, please call back at +15550002222. Thank you and goodbye!".
Proof.
  rewrite buildCallScript_segments; [reflexivity | discriminate].
Defined.

Lemma log_snapshot_immutable_witness :
  exists e',
    nth_error (rev (logs (pageRun zodErrorMap Sample.twoInFlight Cases.later))) 0
    = Some e'
    /\ snapshot e' = snapshot (Sample.entry (lit "req-1") (lit "t1")).
Proof. apply log_snapshot_immutable. reflexivity. Defined.

Lemma settle_commutes_witness :
  handleSubmit_settle (lit "req-1") (Answered Sample.accepted)
    (handleSubmit_settle (lit "req-2") (Answered Sample.rejected)
                         Sample.twoInFlight)
  = handleSubmit_settle (lit "req-2") (Answered Sample.rejected)
      (handleSubmit_settle (lit "req-1") (Answered Sample.accepted)
                           Sample.twoInFlight).
Proof. apply settle_commutes. discriminate. Defined.

Lemma settle_broken_witness :
  let s := handleSubmit_settle (lit "req-2") (Broken Sample.syntaxError)
                               Sample.twoInFlight in
  nth_error (logs s) 0
  = Some (withOutcome failed transportErrorMessage
                      (Sample.entry (lit "req-2") (lit "t2")))
  /\ form s = form Sample.twoInFlight
  /\ formErrors s = formErrors Sample.twoInFlight
  /\ isSubmitting s = false.
Proof.
  exact (settle_broken Sample.twoInFlight (lit "req-2") Sample.syntaxError 0
           (Sample.entry (lit "req-2") (lit "t2")) eq_refl eq_refl).
Defined.

Lemma counters_on_settle_witness :
  totalCalls (logs (handleSubmit_settle (lit "req-2") (Answered Sample.accepted)
                                        Sample.twoInFlight)) = 2
  /\ successfulCalls
       (logs (handleSubmit_settle (lit "req-2") (Answered Sample.accepted)
                                  Sample.twoInFlight)) = 1.
Proof.
  apply (counters_on_settle Sample.twoInFlight (lit "req-2")
           (Answered Sample.accepted) (Sample.entry (lit "req-2") (lit "t2"))).
  - repeat constructor; simpl; intuition discriminate.
  - left. reflexivity.
  - reflexivity.
  - discriminate.
Defined.

Lemma page_request_end_to_end_witness :
  providerCalls (fst (fetchCall zodErrorMap Sample.env Sample.accepting
                                Cases.sentData)) = 1
  /\ hd_error
       (logs (handleSubmit_settle (lit "req-1")
                (snd (fetchCall zodErrorMap Sample.env Sample.accepting
                                Cases.sentData))
                (fst (handleSubmit_begin zodErrorMap (lit "req-1") (lit "t1")
                                         Cases.filledPage))))
     = Some (mkLog (lit "req-1") (lit "t1") succeeded (lit "Jamie Rivera")
                   (lit "+15559876543") (lit "Confirm the 10 AM meeting.")
                   (Some []) (queuedMessage (lit "CA42"))).
Proof.
  pose proof (page_request_end_to_end zodErrorMap zodErrorMap Cases.filledPage
                (lit "req-1") (lit "t1") Sample.accepting
                Cases.sid Cases.token Cases.number eq_refl
                ltac:(discriminate) ltac:(discriminate) ltac:(discriminate))
    as H.
  exact (conj (proj1 (proj2 (proj2 H)))
              (proj1 (proj2 (proj2 (proj2 H))))).
Defined.

Lemma unknown_key_ignored_witness :
  safeParse zodErrorMap requestSchema
            (JObject ((lit "priority", JNumber 1) :: Sample.propsShortName))
  = safeParse zodErrorMap requestSchema (JObject Sample.propsShortName).
Proof.
  apply unknown_key_ignored. simpl. intuition discriminate.
Defined.
